(** * CNTK: Network Description Language and Model Editing Language

    A shallow embedding of the parts of
    [MachineLearning/cn/ModelEditLanguage.cpp] and
    [MachineLearning/cn/NetworkDescriptionLanguage.h] that decide the
    properties stated about them: the case-insensitive prefix matcher
    [EqualInsensitive], the role arrays of [MELScript::SetProperty], the
    command dispatcher [MELScript::CallFunction], the NDL symbol table
    ([AddSymbol], [AssignSymbol], [FindSymbol]), [NDLNode::GetScalar],
    [NDLNode::EvaluateMacro] and [NDLScript::Evaluate].

    C++ objects reached through pointers live in an explicit store that is
    threaded through every operation; a null pointer is [None]; [Error(...)]
    (which throws) is the outcome [Raise]; dereferencing a null pointer is
    the outcome [Fault NullDeref]. *)

From Stdlib Require Import Ascii String.
From stdpp Require Import gmap strings list fin_maps.

Local Open Scope string_scope.

(** ** Outcomes of a C++ call *)

Inductive ErrArg :=
  | ArgStr (s : string)
  | ArgNum (n : nat).

(** [Error(format, args...)]: the format text and the values passed for its
    conversions, in order.  A format that the source ends with [\n] ends
    with a line feed here. *)
Record Error := mkError { errFormat : string; errArgs : list ErrArg }.

Inductive fault := NullDeref | Dangling.

Inductive outcome (A : Type) :=
  | Ok (a : A)
  | Raise (e : Error)
  | Fault (f : fault)
  | OutOfFuel.
Arguments Ok {A} a.
Arguments Raise {A} e.
Arguments Fault {A} f.
Arguments OutOfFuel {A}.

#[global] Instance ErrArg_eq_dec : EqDecision ErrArg.
Proof. solve_decision. Defined.

(** A computation over a store [S]: the store that is left behind is
    returned in every outcome, because C++ mutations done before a throw
    stay done. *)
Definition M (S A : Type) : Type := S -> outcome A * S.

Definition ret {S A} (a : A) : M S A := fun s => (Ok a, s).

Definition bind {S A B} (m : M S A) (k : A -> M S B) : M S B :=
  fun s =>
    match m s with
    | (Ok a, s') => k a s'
    | (Raise e, s') => (Raise e, s')
    | (Fault f, s') => (Fault f, s')
    | (OutOfFuel, s') => (OutOfFuel, s')
    end.

Definition raise {S A} (fmt : string) (args : list ErrArg) : M S A :=
  fun s => (Raise (mkError fmt args), s).

Definition crash {S A} (f : fault) : M S A := fun s => (Fault f, s).

Definition diverge {S A} : M S A := fun s => (OutOfFuel, s).

Definition get {S} : M S S := fun s => (Ok s, s).

Definition modify {S} (f : S -> S) : M S unit := fun s => (Ok tt, f s).

#[global] Instance M_ret {S} : MRet (M S) := fun A a => ret a.
#[global] Instance M_bind {S} : MBind (M S) := fun A B k m => bind m k.

(** [for each (x in l) body(x)] *)
Fixpoint for_each {S A} (l : list A) (body : A -> M S unit) : M S unit :=
  match l with
  | [] => ret tt
  | x :: l' => body x;; for_each l' body
  end.

(** The outcome of a computation followed by a pure result. *)
Definition then_return {S A} (r : outcome unit * S) (a : A) : outcome A * S :=
  match r with
  | (Ok _, s') => (Ok a, s')
  | (Raise e, s') => (Raise e, s')
  | (Fault f, s') => (Fault f, s')
  | (OutOfFuel, s') => (OutOfFuel, s')
  end.

(** ** C strings *)

Module CStr.

Definition NUL : ascii := Ascii.zero.

(** [s.c_str()] as a C function reads it: the characters before the first
    NUL. *)
Fixpoint c_str (s : string) : string :=
  match s with
  | EmptyString => EmptyString
  | String c s' => if Ascii.eqb c NUL then EmptyString else String c (c_str s')
  end.

Definition strlen (s : string) : nat := String.length (c_str s).

(** [tolower] in the "C" locale. *)
Definition tolower (c : ascii) : ascii :=
  let n := nat_of_ascii c in
  if (65 <=? n)%nat && (n <=? 90)%nat then ascii_of_nat (n + 32) else c.

Fixpoint lower (s : string) : string :=
  match s with
  | EmptyString => EmptyString
  | String c s' => String (tolower c) (lower s')
  end.

(** [!_strnicmp(a, b, n)] on NUL-terminated strings: [true] when the first
    [n] characters agree up to case, the comparison ending early where both
    strings end. *)
Fixpoint strnicmp_eq (a b : string) (n : nat) : bool :=
  match n with
  | O => true
  | S n' =>
      match a, b with
      | EmptyString, EmptyString => true
      | String x a', String y b' =>
          if Ascii.eqb (tolower x) (tolower y) then strnicmp_eq a' b' n' else false
      | _, _ => false
      end
  end.

(** [strcmp(a, b) != 0] *)
Definition strcmp_ne (a b : string) : bool := negb (String.eqb (c_str a) (c_str b)).

(** [s.find_first_of(c)]; [None] is [npos]. *)
Fixpoint find_first_of (c : ascii) (s : string) : option nat :=
  match s with
  | EmptyString => None
  | String x s' => if Ascii.eqb x c then Some O else S <$> find_first_of c s'
  end.

Fixpoint take_str (n : nat) (s : string) : string :=
  match n, s with
  | S n', String c s' => String c (take_str n' s')
  | _, _ => EmptyString
  end.

Fixpoint drop_str (n : nat) (s : string) : string :=
  match n, s with
  | S n', String _ s' => drop_str n' s'
  | _, _ => s
  end.

(** [s.substr(0, pos)] where [pos] may be [npos]. *)
Definition substr_to (pos : option nat) (s : string) : string :=
  match pos with
  | None => s
  | Some n => take_str n s
  end.

(** The case-insensitive prefix relation the matcher is described by. *)
Definition prefix_nocase (a b : string) : Prop :=
  exists rest, lower b = lower a +:+ rest.

End CStr.
Import CStr.

(** ** ModelEditLanguage.cpp *)

(** [EqualInsensitive(string1, string2, alternate)]: the result and the new
    contents of the in/out argument [string1]. *)
Definition EqualInsensitive (string1 string2 : string) (alternate : option string)
  : bool * string :=
  let equal := strnicmp_eq (c_str string1) (c_str string2) (String.length string1) in
  (* don't allow partial matches that are less than half the string *)
  let equal :=
    if equal && (String.length string1 <? strlen string2 / 2)%nat then false else equal in
  (* if we have a (partial) match replace with the full name *)
  let string1 :=
    if equal && strcmp_ne string1 string2 then c_str string2 else string1 in
  match alternate with
  | Some alt =>
      if negb equal then
        let equal := strnicmp_eq (c_str string1) (c_str alt) (String.length string1) in
        let equal :=
          if equal && (String.length string1 <? strlen alt / 2)%nat then false else equal in
        let string1 := if equal then c_str string2 else string1 in
        (equal, string1)
      else (equal, string1)
  | None => (equal, string1)
  end.

(** [MELScript::SetProperty]: [found] is the position of the first element
    equal to [nodeProp], [None] standing for [propArray.end()]. *)
Section SetProperty.
Context {Node : Type} `{EqDecision Node}.

Fixpoint find_node (nodeProp : Node) (propArray : list Node) : option nat :=
  match propArray with
  | [] => None
  | x :: rest =>
      if decide (x = nodeProp) then Some O else S <$> find_node nodeProp rest
  end.

Definition SetProperty (nodeProp : Node) (propArray : list Node) (set : bool)
  : list Node :=
  let found := find_node nodeProp propArray in
  match found with
  | None => if set then propArray ++ [nodeProp] else propArray
  | Some i => if set then propArray else delete i propArray
  end.

Definition occurrences (nodeProp : Node) (propArray : list Node) : nat :=
  length (filter (fun x => x = nodeProp) propArray).
End SetProperty.

(** ** NetworkDescriptionLanguage.h: enumerations *)

Inductive NDLType :=
  | ndlTypeNull
  | ndlTypeConstant
  | ndlTypeFunction
  | ndlTypeVariable
  | ndlTypeParameter
  | ndlTypeUndetermined
  | ndlTypeDotParameter
  | ndlTypeOptionalParameter
  | ndlTypeArray
  | ndlTypeMacroCall
  | ndlTypeMacro
  | ndlTypeMax.

#[global] Instance NDLType_eq_dec : EqDecision NDLType.
Proof. solve_decision. Defined.

Inductive NDLPass := ndlPassInitial | ndlPassResolve | ndlPassFinal.

(** [ndlPassAll = ndlPassFinal] *)
Definition ndlPassAll : NDLPass := ndlPassFinal.

#[global] Instance NDLPass_eq_dec : EqDecision NDLPass.
Proof. solve_decision. Defined.

(** ** The Model Editing Language interpreter *)

Module MEL.

(** Modelled from the spec: [ComputationNetwork] and [ComputationNode] are
    declared in ComputationNetwork.h and ComputationNode.h, which are not
    part of these sources.  The spec describes the network as an external
    graph with name->node lookup and input edges that [SetInput] rewires;
    a network is the map from node names to the names of their inputs. *)
Record ComputationNetwork := mkNetwork { cnNodes : gmap string (list string) }.

(** [new ComputationNetwork(CPUDEVICE)] *)
Definition new_ComputationNetwork : ComputationNetwork := mkNetwork ∅.

(** [NetNdl]: a network, its script, and the last node evaluated in each
    pass ([ndlPassMax] = 3 entries). *)
Record NetNdl := mkNetNdl {
  cn : option ComputationNetwork;
  ndl : option nat;
  lastNode : list (option nat)
}.

(** [NetNdl(p_cn)]: the constructor clears the last nodes. *)
Definition NetNdl_of (p_cn : ComputationNetwork) : NetNdl :=
  mkNetNdl (Some p_cn) None [None; None; None].

(** The interpreter's members.  [m_netNdlDefault] points into
    [m_mapNameToNetNdl]; the pointer is the key of the entry. *)
Record MELScript := mkMEL {
  m_mapNameToNetNdl : gmap string NetNdl;
  m_netNdlDefault : option string
}.

(** The commands whose bodies lie in code outside these sources. *)
Inductive MELCommand :=
  | cmdLoadModel | cmdLoadModelWithName | cmdLoadNDLSnippet
  | cmdSaveDefaultModel | cmdSaveModel | cmdSetDefaultModel
  | cmdDumpModel | cmdDumpNode | cmdCopyNode | cmdCopySubTree
  | cmdCopyNodeInputs | cmdSetNodeInputs | cmdSetProperty
  | cmdSetPropertyForSubTree | cmdRemoveNode | cmdRename.

(** What [CallFunction] calls and these sources do not define: members
    declared in ModelEditLanguage.h, [NDLUtil], the [ConfigValue]
    conversion to [int] and [ComputationNode::SetInput].  A [NetNdl*] is
    the key of the registry entry it points to. *)
Record Host := mkHost {
  OverrideModelNameAndSetDefaultModel :
    ComputationNetwork -> option string -> M MELScript unit;
  FindSymbols : string -> M MELScript (list string * string);
  ProcessNDLScript : string -> NDLPass -> bool -> M MELScript unit;
  SetInput : string -> string -> Z -> string -> M MELScript unit;
  ConfigValue_int : string -> Z;
  commandBody : MELCommand -> list string -> M MELScript unit
}.

(** [params[i]] of a [ConfigParamList] *)
Definition param (params : list string) (i : nat) : string := nth i params EmptyString.

(** The parameter-count guard that opens most commands. *)
Definition check_count (params : list string) (numFixedParams numOptionalParams : nat)
    (message : string) : M MELScript unit :=
  if (numFixedParams + numOptionalParams <? length params)%nat
     || (length params <? numFixedParams)%nat
  then raise message []
  else ret tt.

(** The body of the [UnloadModel] loop. *)
Definition unload_one (modelName : string) : M MELScript unit :=
  modify (fun mel =>
    match m_mapNameToNetNdl mel !! modelName with
    | Some _ =>
        mkMEL (delete modelName (m_mapNameToNetNdl mel))
              (if decide (m_netNdlDefault mel = Some modelName) then None
               else m_netNdlDefault mel)
    | None => mel (* warning printed on stderr *)
    end).

Section CallFunction.
Variable host : Host.

(** The [SetNodeInput] command. *)
Definition SetNodeInput_body (params : list string) : M MELScript unit :=
  check_count params 3 0
    "Invalid number of parameters. Valid parameters are: SetNodeInput(toNode, inputID(0-based), inputNodeName)";;
  '(nodeTo, netNdlTo) ← FindSymbols host (param params 0);
  '(nodeFrom, netNdlFrom) ← FindSymbols host (param params 2);
  let inputNum := ConfigValue_int host (param params 1) in
  (if decide (netNdlTo = netNdlFrom) then ret tt
   else raise "SetNodeInput() requires two symbols from the same network, %s and %s belong to different networks"
              [ArgStr (param params 0); ArgStr (param params 2)]);;
  (if decide (length nodeFrom = 1%nat) then ret tt
   else raise "SetNodeInput() must have a single value input, %s doesn't represent one item"
              [ArgStr (param params 0)]);;
  (if decide (length nodeTo < 1)%nat
   then raise "SetNodeInput() must have at least one target, %s doesn't represent any items"
              [ArgStr (param params 2)]
   else ret tt);;
  ProcessNDLScript host netNdlFrom ndlPassResolve false;;
  for_each nodeTo (fun node =>
    SetInput host netNdlTo node inputNum (nth 0 nodeFrom EmptyString)).

(** [MELScript::CallFunction(p_name, params)] *)
Definition CallFunction (p_name : string) (params : list string) : M MELScript unit :=
  let name := p_name in
  let '(isCreateModel, name) := EqualInsensitive name "CreateModel" None in
  (if isCreateModel then
     check_count params 0 0
       "Invalid number of parameters. Valid parameters: CreateModel(). newly created model always becomes the new default.";;
     OverrideModelNameAndSetDefaultModel host new_ComputationNetwork None
   else ret tt);;
  let '(b, name) := EqualInsensitive name "CreateModelWithName" None in
  if b then
    check_count params 1 0
      "Invalid number of parameters. Valid parameters: CreateModelWithName(modelName). newly created model always becomes the new default.";;
    OverrideModelNameAndSetDefaultModel host new_ComputationNetwork (Some (param params 0))
  else
  let '(b, name) := EqualInsensitive name "LoadModel" None in
  if b then
    check_count params 1 1
      "Invalid number of parameters. Valid parameters: LoadModel(modelFileName, [format=cntk]). newly loaded model always becomes the new default.";;
    commandBody host cmdLoadModel params
  else
  let '(b, name) := EqualInsensitive name "LoadModelWithName" None in
  if b then
    check_count params 2 1
      "Invalid number of parameters. Valid parameters: LoadModelWithName(modelName, modelFileName, [format=cntk]). newly loaded model always becomes the new default.";;
    commandBody host cmdLoadModelWithName params
  else
  let '(b, name) := EqualInsensitive name "LoadNDLSnippet" None in
  if b then
    check_count params 2 1
      "Invalid number of parameters. Valid parameters: LoadNDLSnippet(modelName, ndlsnippet).";;
    commandBody host cmdLoadNDLSnippet params
  else
  let '(b, name) := EqualInsensitive name "SaveDefaultModel" None in
  if b then
    check_count params 1 1
      "Invalid number of parameters. Valid parameters: SaveDefaultModel(modelFileName, [format=cntk]).";;
    commandBody host cmdSaveDefaultModel params
  else
  let '(b, name) := EqualInsensitive name "SaveModel" None in
  if b then
    check_count params 2 1
      "Invalid number of parameters. Valid parameters: SaveModel(modelName, modelFileName, [format=cntk]).";;
    commandBody host cmdSaveModel params
  else
  let '(b, name) := EqualInsensitive name "SetDefaultModel" None in
  if b then
    check_count params 1 0
      "Invalid number of parameters. Valid parameters: SetDefaultModel(modelName)";;
    commandBody host cmdSetDefaultModel params
  else
  let '(b, name) := EqualInsensitive name "UnloadModel" None in
  if b then
    for_each params unload_one
  else
  let '(b, name) := EqualInsensitive name "DumpModel" (Some "Dump") in
  if b then
    check_count params 2 1
      "Invalid number of parameters. Valid parameters: DumpNetwork(modelName, fileName, [includeData=false|true])";;
    commandBody host cmdDumpModel params
  else
  let '(b, name) := EqualInsensitive name "DumpNode" None in
  if b then
    check_count params 2 1
      "Invalid number of parameters. Valid parameters: DumpNode(nodeName, fileName, [includeData=false|true])";;
    commandBody host cmdDumpNode params
  else
  let '(b, name) := EqualInsensitive name "CopyNode" (Some "Copy") in
  if b then
    check_count params 2 1
      "Invalid number of parameters. Valid parameters are: CopyNode(fromNode, toNode, [copy=all|value])";;
    commandBody host cmdCopyNode params
  else
  let '(b, name) := EqualInsensitive name "CopySubTree" None in
  if b then
    check_count params 3 1
      "Invalid number of parameters. Valid parameters are: CopySubTree(fromNode, toNetwork, toNodeNamePrefix, [copy=all|value])";;
    commandBody host cmdCopySubTree params
  else
  let '(b, name) := EqualInsensitive name "CopyNodeInputs" (Some "CopyInputs") in
  if b then
    check_count params 2 0
      "Invalid number of parameters. Valid parameters are: CopyNodeInputs(fromNode, toNode)";;
    commandBody host cmdCopyNodeInputs params
  else
  let '(b, name) := EqualInsensitive name "SetNodeInput" (Some "SetInput") in
  if b then
    SetNodeInput_body params
  else
  let '(b, name) := EqualInsensitive name "SetNodeInputs" (Some "SetInputs") in
  if b then
    (if (4 <? length params)%nat || (length params <? 2)%nat
     then raise "Invalid number of parameters. Valid parameters are: SetNodeInputs(toNode, inputNodeName1, [inputNodeName2, inputNodeName3])" []
     else ret tt);;
    commandBody host cmdSetNodeInputs params
  else
  let '(b, name) := EqualInsensitive name "SetProperty" None in
  if b then
    (if decide (length params = 3%nat) then ret tt
     else raise "Invalid number of parameters: Valid parameters are: SetProperty(toNode, propertyName, propertyValue)" []);;
    commandBody host cmdSetProperty params
  else
  let '(b, name) := EqualInsensitive name "SetPropertyForSubTree" None in
  if b then
    check_count params 3 0
      "Invalid number of parameters. Valid parameters are: SetPropertyForSubTree(rootNodeName, propertyName, propertyValue)";;
    commandBody host cmdSetPropertyForSubTree params
  else
  let '(b, name) :=
    let '(b1, name1) := EqualInsensitive name "RemoveNode" (Some "Remove") in
    if b1 then (true, name1) else EqualInsensitive name1 "DeleteNode" (Some "Delete") in
  if b then
    commandBody host cmdRemoveNode params
  else
  let '(b, name) := EqualInsensitive name "Rename" None in
  if b then
    check_count params 2 0
      "Invalid number of parameters. Valid parameters are Rename(oldNodeName, newNodeName)";;
    commandBody host cmdRename params
  else
    raise "Unknown Editor function %s" [ArgStr (c_str name)].
End CallFunction.

End MEL.

(** ** The Network Description Language *)

Module NDL.

(** Pointers: an [NDLNode*] or [NDLScript*] is an address in the store. *)
Definition NodeId := nat.
Definition ScriptId := nat.

Module NDLNode.
Record t := mk {
  m_name : string;                 (* value on the left of the equals *)
  m_value : string;                (* value on the right of the equals *)
  m_parent : ScriptId;             (* parent script *)
  m_type : NDLType;
  m_paramString : list string;
  m_paramMacro : list string;      (* formal parameters of the macro called *)
  m_parameters : list NodeId;      (* parameters as nodes *)
  m_eval : option nat;             (* void* to the evaluator's value *)
  m_script : option ScriptId       (* script for ndlTypeMacro / ndlTypeMacroCall *)
}.

Definition SetEvalValue (evalValue : option nat) (n : t) : t :=
  mk (m_name n) (m_value n) (m_parent n) (m_type n) (m_paramString n)
     (m_paramMacro n) (m_parameters n) evalValue (m_script n).
End NDLNode.

Module NDLScript.
(** [m_symbols] is a [std::map] from names to node pointers, ordered by
    [nocase_compare] (see [key] below).  A symbol may be bound to a null
    pointer. *)
Record t := mk {
  m_baseName : string;
  m_script : list NodeId;          (* script lines in parsed node order *)
  m_symbols : gmap string (option NodeId);
  m_noDefinitions : bool;
  m_children : list NodeId
}.

Definition set_symbols (f : gmap string (option NodeId) -> gmap string (option NodeId))
    (s : t) : t :=
  mk (m_baseName s) (m_script s) (f (m_symbols s)) (m_noDefinitions s) (m_children s).

Definition set_baseName (b : string) (s : t) : t :=
  mk b (m_script s) (m_symbols s) (m_noDefinitions s) (m_children s).
End NDLScript.

(** The store: every node and script that has been allocated, and the
    state [H] of the host evaluator. *)
Record Store (H : Type) := mkStore {
  nodes : gmap NodeId NDLNode.t;
  scripts : gmap ScriptId NDLScript.t;
  hostState : H
}.
Arguments mkStore {H} _ _ _.
Arguments nodes {H} _.
Arguments scripts {H} _.
Arguments hostState {H} _.

(** [NDLScript::s_global], the one global script. *)
Definition s_global : ScriptId := 0%nat.

(** [NDLNodeEvaluator]: the interface an execution engine implements.  The
    engine is a separate object: [Evaluate] and [ProcessOptionalParameters]
    may record values in the nodes and in the engine's own state;
    [FindSymbol] searches the engine's symbol table and changes nothing. *)
Record NDLNodeEvaluator (H : Type) := mkEvaluator {
  eval_Evaluate : NodeId -> string -> NDLPass -> M (Store H) unit;
  eval_FindSymbol : string -> Store H -> option nat;
  eval_ProcessOptionalParameters : NodeId -> M (Store H) unit
}.
Arguments mkEvaluator {H} _ _ _.
Arguments eval_Evaluate {H} _.
Arguments eval_FindSymbol {H} _.
Arguments eval_ProcessOptionalParameters {H} _.

Section Operations.
Context {H : Type}.
Local Abbreviation St := (Store H).

(** [*p] for a non-null [p] *)
Definition getNode (p : NodeId) : M St NDLNode.t :=
  fun st => match nodes st !! p with
            | Some n => (Ok n, st)
            | None => (Fault Dangling, st)
            end.

(** [p->...] for a possibly null [p] *)
Definition deref (p : option NodeId) : M St NDLNode.t :=
  match p with
  | Some id => getNode id
  | None => crash NullDeref
  end.

Definition getScript (p : ScriptId) : M St NDLScript.t :=
  fun st => match scripts st !! p with
            | Some s => (Ok s, st)
            | None => (Fault Dangling, st)
            end.

Definition updNode (p : NodeId) (f : NDLNode.t -> NDLNode.t) : M St unit :=
  n ← getNode p;
  modify (fun st => mkStore (<[p := f n]> (nodes st)) (scripts st) (hostState st)).

Definition updScript (p : ScriptId) (f : NDLScript.t -> NDLScript.t) : M St unit :=
  s ← getScript p;
  modify (fun st => mkStore (nodes st) (<[p := f s]> (scripts st)) (hostState st)).

(** Modelled from the spec: [nocase_compare], the ordering of [m_symbols],
    is not defined in these sources; the spec calls the table a
    case-insensitive name->Node map.  The key under which a name is filed
    is its lower-case form. *)
Definition key (symbol : string) : string := lower symbol.

(** What [m_symbols] of a script holds for [symbol]: nothing, a null
    pointer, or a node. *)
Definition binding (st : St) (script : ScriptId) (symbol : string)
  : option (option NodeId) :=
  s ← scripts st !! script; NDLScript.m_symbols s !! key symbol.

(** [NDLScript::FindSymbol(symbol)] with [searchForDotNames = false] *)
Definition FindSymbol_plain (this : ScriptId) (symbol : string)
  : M St (option NodeId) :=
  s ← getScript this;
  match NDLScript.m_symbols s !! key symbol with
  | None => ret None
  | Some second => ret second
  end.

(** [NDLScript::FindSymbol(symbol, searchForDotNames)] *)
Definition FindSymbol (this : ScriptId) (symbol : string) (searchForDotNames : bool)
  : M St (option NodeId) :=
  if negb searchForDotNames then FindSymbol_plain this symbol
  else
    let firstDot := find_first_of "." symbol in
    let search := substr_to firstDot symbol in
    s ← getScript this;
    match NDLScript.m_symbols s !! key search with
    | None => ret None
    | Some second =>
        match firstDot with
        | Some dot =>
            node ← deref second;
            match NDLNode.m_script node with
            | Some script =>
                if decide (NDLNode.m_type node = ndlTypeMacroCall)
                then FindSymbol_plain script (drop_str (dot + 1) symbol)
                else raise "Symbol name not valid, %s is not a macro, so %s cannot be interpretted"
                           [ArgStr search; ArgStr symbol]
            | None => ret second
            end
        | None => ret second
        end
    end.

(** [NDLScript::ExistsSymbol] *)
Definition ExistsSymbol (this : ScriptId) (symbol : string) : M St bool :=
  s ← getScript this;
  ret (bool_decide (is_Some (NDLScript.m_symbols s !! key symbol))).

(** [NDLScript::AddSymbol] *)
Definition AddSymbol (this : ScriptId) (symbol : string) (node : option NodeId)
  : M St unit :=
  s ← getScript this;
  match NDLScript.m_symbols s !! key symbol with
  | Some second =>
      nodeFound ← deref second;
      (* check for undetermined node, because these nodes are to be defined later *)
      if decide (NDLNode.m_type nodeFound = ndlTypeUndetermined) then ret tt
      else raise "Symbol '%s' currently assigned to '%s' reassigning to a different value not allowed
"
                 [ArgStr symbol; ArgStr (NDLNode.m_value nodeFound)]
  | None => ret tt
  end;;
  updScript this (NDLScript.set_symbols (<[key symbol := node]>)).

(** [NDLScript::AssignSymbol] *)
Definition AssignSymbol (this : ScriptId) (symbol : string) (node : option NodeId)
  : M St unit :=
  s ← getScript this;
  match NDLScript.m_symbols s !! key symbol with
  | None =>
      n ← deref node;
      raise "Symbol '%s' currently does not exist, attempting to assigned value '%s' AssignSymbol() requires existing symbol
"
            [ArgStr symbol; ArgStr (NDLNode.m_value n)]
  | Some _ => ret tt
  end;;
  updScript this (NDLScript.set_symbols (<[key symbol := node]>)).

(** [NDLScript::ClearEvalValues] *)
Definition ClearEvalValues (this : ScriptId) : M St unit :=
  s ← getScript this;
  for_each (NDLScript.m_children s) (fun node => updNode node (NDLNode.SetEvalValue None)).

Definition GetBaseName (this : ScriptId) : M St string :=
  s ← getScript this; ret (NDLScript.m_baseName s).

Definition SetBaseName (this : ScriptId) (baseName : string) : M St unit :=
  updScript this (NDLScript.set_baseName baseName).

(** [NDLNode::FindNode] *)
Definition FindNode (this : NodeId) (name : string) (searchForDotNames : bool)
  : M St (option NodeId) :=
  n ← getNode this;
  found ← FindSymbol (NDLNode.m_parent n) name searchForDotNames;
  match found with
  | Some _ => ret found
  | None => FindSymbol s_global name searchForDotNames
  end.

Definition is_reference (ty : NDLType) : bool :=
  bool_decide (ty = ndlTypeVariable) || bool_decide (ty = ndlTypeParameter)
  || bool_decide (ty = ndlTypeDotParameter).

(** The [while] loop of [GetScalar]; each unit of fuel pays for one
    iteration. *)
Fixpoint GetScalar_loop (fuel : nat) (node : option NodeId) : M St (option NodeId) :=
  match node with
  | None => ret None
  | Some p =>
      n ← getNode p;
      if is_reference (NDLNode.m_type n) then
        match fuel with
        | O => diverge
        | S fuel' =>
            node' ← FindNode p (NDLNode.m_value n) true;
            GetScalar_loop fuel' node'
        end
      else ret node
  end.

(** [NDLNode::GetScalar] *)
Definition GetScalar (fuel : nat) (this : NodeId) : M St string :=
  node ← GetScalar_loop fuel (Some this);
  match node with
  | None =>
      (* !node holds: the body of the if reads node->GetName() *)
      n ← deref node;
      raise "Scalar expected, '%s' must be a constant or variable that resolves to a constant
"
            [ArgStr (NDLNode.m_name n)]
  | Some p =>
      n ← getNode p;
      if decide (NDLNode.m_type n = ndlTypeConstant) then ret (NDLNode.m_value n)
      else raise "Scalar expected, '%s' must be a constant or variable that resolves to a constant
"
                 [ArgStr (NDLNode.m_name n)]
  end.
End Operations.

Section Evaluation.
Context {H : Type}.
Variable nodeEval : NDLNodeEvaluator H.
Local Abbreviation St := (Store H).

(** [msra::strfun::utf16]: wide strings are modelled by the same type. *)
Definition utf16 (s : string) : string := s.

(** One iteration, for index [i], of the loop of [EvaluateMacro] that
    assigns the actual parameters in the script of the macro. *)
Definition bind_parameter (this : NodeId) (script : ScriptId) (i : nat)
    (m_parameters_i : NodeId) : M St unit :=
  me ← getNode this;
  let m_paramMacro := NDLNode.m_paramMacro me in
  param ← getNode m_parameters_i;
  let paramName :=
    if (i <? length m_paramMacro)%nat then nth i m_paramMacro EmptyString
    else NDLNode.m_name param in
  (* (the node bound, whether the iteration ends with [continue]) *)
  '(nodeParam, continue) ←
    (if decide (NDLNode.m_type param = ndlTypeParameter) then
       (* if the node is a parameter then look it up in the symbol table *)
       found ← FindSymbol (NDLNode.m_parent me) (NDLNode.m_name param) false;
       ret (found, false)
     else if decide (NDLNode.m_type param = ndlTypeOptionalParameter) then
       (if (i <? length m_paramMacro)%nat
        then raise "Parameter mismatch, parameter %d is an optional parameter, but should be a required parameter
"
                   [ArgNum i]
        else ret tt);;
       (* if no symbol yet, add it *)
       exists_ ← ExistsSymbol script paramName;
       if negb exists_ then
         AddSymbol script paramName (Some m_parameters_i);;
         ret (Some m_parameters_i, true)
       else ret (Some m_parameters_i, false) (* else assign the value below *)
     else ret (Some m_parameters_i, false));
  if continue : bool then ret tt
  else
    (* assign the parameter symbols in the script we will call *)
    AssignSymbol script paramName nodeParam;;
    (* look for the symbol already in the node evaluators symbols *)
    st ← get;
    let evalValue := eval_FindSymbol nodeEval (utf16 paramName) st in
    (* if it's there, use it *)
    match evalValue with
    | Some v =>
        match nodeParam with
        | Some p => updNode p (NDLNode.SetEvalValue (Some v))
        | None => crash NullDeref
        end
    | None => ret tt
    end.

(** [for (int i = 0; i < m_parameters.size(); ++i)], from index [i]. *)
Fixpoint bind_parameters (this : NodeId) (script : ScriptId) (i : nat)
    (m_parameters : list NodeId) : M St unit :=
  match m_parameters with
  | [] => ret tt
  | p :: rest =>
      bind_parameter this script i p;;
      bind_parameters this script (S i) rest
  end.

(** The base name of the symbols of a macro body: [baseName], a dot when
    [baseName] is not empty, and the name of the call. *)
Definition newBase_of (baseName m_name : string) : string :=
  let newBase := baseName in
  let newBase := if decide (newBase = EmptyString) then newBase else newBase +:+ "." in
  newBase +:+ utf16 m_name.

Section Body.
(** The macro expander the statement loop calls; [EvaluateMacro] below
    ties the knot. *)
Variable EvaluateMacro_rec : NodeId -> string -> NDLPass -> M St (option NodeId).

(** The [for each (auto node in m_script)] loop of [NDLScript::Evaluate],
    with its two loop variables. *)
Fixpoint Evaluate_loop (statements : list NodeId) (baseName : string) (pass : NDLPass)
    (skipThrough : option NodeId) (skip : bool) (nodeLast : option NodeId)
  : M St (option NodeId) :=
  match statements with
  | [] => ret nodeLast
  | node :: rest =>
      if skip then
        (* if we are in skip mode, and we found the skipThrough node,
           move out of skip mode and start processing at next node *)
        Evaluate_loop rest baseName pass skipThrough
          (if decide (Some node = skipThrough) then false else skip) nodeLast
      else
        n ← getNode node;
        (if decide (NDLNode.m_type n = ndlTypeMacroCall) then
           EvaluateMacro_rec node baseName pass;;
           eval_ProcessOptionalParameters nodeEval node
         else
           eval_Evaluate nodeEval node baseName pass);;
        Evaluate_loop rest baseName pass skipThrough skip (Some node)
  end.

(** [NDLScript::Evaluate(nodeEval, baseName, pass, skipThrough)] *)
Definition Evaluate_with (this : ScriptId) (baseName : string) (pass : NDLPass)
    (skipThrough : option NodeId) : M St (option NodeId) :=
  let nodeLast := skipThrough in
  let skip := bool_decide (skipThrough <> None) in
  prevBaseName ← GetBaseName this;
  SetBaseName this baseName;;
  s ← getScript this;
  nodeLast ← Evaluate_loop (NDLScript.m_script s) baseName pass skipThrough skip nodeLast;
  SetBaseName this prevBaseName;;
  ret nodeLast.

(** [NDLNode::EvaluateMacro(nodeEval, baseName, pass)] *)
Definition EvaluateMacro_with (this : NodeId) (baseName : string) (pass : NDLPass)
  : M St (option NodeId) :=
  me ← getNode this;
  if decide (NDLNode.m_type me = ndlTypeMacroCall) then
    (* make sure the actual parameters and expected parameters match *)
    (if (length (NDLNode.m_parameters me) <? length (NDLNode.m_paramMacro me))%nat
     then raise "Parameter mismatch, %d parameters provided, %d expected in call to %s
"
                [ArgNum (length (NDLNode.m_parameters me));
                 ArgNum (length (NDLNode.m_paramMacro me));
                 ArgStr (NDLNode.m_value me)]
     else ret tt);;
    script ← match NDLNode.m_script me with
             | Some script => ret script
             | None => crash NullDeref
             end;
    (* we need to clear out the eval values, because we need to re-evaluate
       each time a macro is called *)
    ClearEvalValues script;;
    (* assign the actual parameters in the script so we can execute it *)
    bind_parameters this script 0 (NDLNode.m_parameters me);;
    me ← getNode this;
    let newBase := newBase_of baseName (NDLNode.m_name me) in
    (* now evaluate the contained macro script *)
    nodeResult ← Evaluate_with script newBase pass None;
    (* look for a symbol that is identical to the macro name, if it exists
       this is the return value *)
    me ← getNode this;
    nodeMacroName ← FindSymbol script (NDLNode.m_value me) false;
    let nodeResult := match nodeMacroName with
                      | Some _ => nodeMacroName
                      | None => nodeResult
                      end in
    (* set the eval node to be the same as the return value *)
    match nodeResult with
    | Some r =>
        res ← getNode r;
        updNode this (NDLNode.SetEvalValue (NDLNode.m_eval res))
    | None => ret tt
    end;;
    ret nodeResult
  else ret None.
End Body.

(** Macro bodies may call macros, themselves included, and nothing bounds
    the depth: [fuel] is the number of nested calls paid for. *)
Fixpoint EvaluateMacro (fuel : nat) (this : NodeId) (baseName : string) (pass : NDLPass)
  : M St (option NodeId) :=
  match fuel with
  | O => diverge
  | S fuel' => EvaluateMacro_with (EvaluateMacro fuel') this baseName pass
  end.

Definition Evaluate (fuel : nat) (this : ScriptId) (baseName : string) (pass : NDLPass)
    (skipThrough : option NodeId) : M St (option NodeId) :=
  Evaluate_with (EvaluateMacro fuel) this baseName pass skipThrough.
End Evaluation.

End NDL.

(** ** The statement loop, as the specification words it *)

Module EvaluateSpec.
Import NDL.
Section Spec.
Context {H : Type}.
Variable nodeEval : NDLNodeEvaluator H.
Variable fuel : nat.

(** The statements after the first occurrence of [p], in declaration
    order; none when [p] does not occur. *)
Fixpoint after_first (p : NodeId) (statements : list NodeId) : list NodeId :=
  match statements with
  | [] => []
  | node :: rest => if decide (node = p) then rest else after_first p rest
  end.

(** What is left to evaluate once everything up to and including
    [skipThrough] has been skipped. *)
Definition statements_to_evaluate (skipThrough : option NodeId)
    (statements : list NodeId) : list NodeId :=
  match skipThrough with
  | None => statements
  | Some p => after_first p statements
  end.

(** A MacroCall statement goes to macro expansion, then the evaluator
    processes its optional parameters; any other statement goes to the
    evaluator's [Evaluate]. *)
Definition evaluate_statement (baseName : string) (pass : NDLPass) (node : NodeId)
  : M (Store H) unit :=
  n ← getNode node;
  if decide (NDLNode.m_type n = ndlTypeMacroCall) then
    EvaluateMacro nodeEval fuel node baseName pass;;
    eval_ProcessOptionalParameters nodeEval node
  else eval_Evaluate nodeEval node baseName pass.

(** The last node evaluated, or [skipThrough] itself if nothing was. *)
Definition last_evaluated (skipThrough : option NodeId) (evaluated : list NodeId)
  : option NodeId :=
  match last evaluated with
  | Some node => Some node
  | None => skipThrough
  end.

Definition Evaluate_spec (this : ScriptId) (baseName : string) (pass : NDLPass)
    (skipThrough : option NodeId) : M (Store H) (option NodeId) :=
  prevBaseName ← GetBaseName this;
  SetBaseName this baseName;;
  s ← getScript this;
  let todo := statements_to_evaluate skipThrough (NDLScript.m_script s) in
  for_each todo (evaluate_statement baseName pass);;
  SetBaseName this prevBaseName;;
  ret (last_evaluated skipThrough todo).
End Spec.
End EvaluateSpec.

(** ** Host members of the interpreter that lie outside these sources *)

Module MELSpec.
Import MEL.

Definition default_key : string := "default".

(** Modelled from the spec: [OverrideModelNameAndSetDefaultModel] is declared
    in ModelEditLanguage.h, which is not part of these sources.  The spec:
    the new Network "becomes default (or registers under the given name)";
    the usage texts add that the new model always becomes the new default.
    The key of the entry of an unnamed model is a choice of this model. *)
Definition OverrideModelNameAndSetDefaultModel_spec (net : ComputationNetwork)
    (modelName : option string) : M MELScript unit :=
  let k := default default_key modelName in
  modify (fun mel => mkMEL (<[k := NetNdl_of net]> (m_mapNameToNetNdl mel)) (Some k)).

(** The network of the default model, if there is one. *)
Definition default_network (mel : MELScript) : option ComputationNetwork :=
  k ← m_netNdlDefault mel; n ← m_mapNameToNetNdl mel !! k; cn n.

(** The input edges of a node of the default model. *)
Definition inputs_of (mel : MELScript) (node : string) : option (list string) :=
  net ← default_network mel; cnNodes net !! node.

(** [symbol] is defined in the target network. *)
Definition defined (mel : MELScript) (symbol : string) : Prop :=
  is_Some (inputs_of mel symbol).

(** Modelled from the spec: [FindSymbols] is declared in ModelEditLanguage.h,
    which is not part of these sources.  The spec: commands "look up nodes by
    name", and a "nonexistent model/node reference" is a "StateError naming
    the missing symbol".  Names are resolved in the default model; the text
    of the message is not known, only that it carries the symbol. *)
Definition FindSymbols_spec (symbol : string) : M MELScript (list string * string) :=
  mel ← get;
  match m_netNdlDefault mel, inputs_of mel symbol with
  | Some k, Some _ => ret ([symbol], k)
  | _, _ => raise "StateError: %s" [ArgStr symbol]
  end.

(** Modelled from the spec: [ComputationNode::SetInput] is declared in
    ComputationNode.h, which is not part of these sources; it rewires one
    input edge of the node. *)
Definition SetInput_spec (netNdl node : string) (inputNum : Z) (input : string)
  : M MELScript unit :=
  modify (fun mel =>
    match m_mapNameToNetNdl mel !! netNdl with
    | Some (mkNetNdl (Some net) script last) =>
        let net' := mkNetwork (alter (fun ins => <[Z.to_nat inputNum := input]> ins)
                                     node (cnNodes net)) in
        mkMEL (<[netNdl := mkNetNdl (Some net') script last]> (m_mapNameToNetNdl mel))
              (m_netNdlDefault mel)
    | _ => mel
    end).

(** The conversion of a [ConfigValue] to [int] used by the hosts below: a
    decimal numeral. *)
Definition int_of_string (s : string) : Z :=
  fold_left (fun acc c => (10 * acc + (Z.of_nat (nat_of_ascii c) - 48))%Z)
            (list_ascii_of_string s) 0%Z.

(** The host with the members above; NDL processing and the commands that
    live entirely outside these sources do nothing. *)
Definition spec_host : Host :=
  mkHost OverrideModelNameAndSetDefaultModel_spec
         FindSymbols_spec
         (fun _ _ _ => ret tt)
         SetInput_spec
         int_of_string
         (fun _ _ => ret tt).

(** No model loaded. *)
Definition mel_empty : MELScript := mkMEL ∅ None.

(** One default model: node A with inputs X and Y. *)
Definition net_example : ComputationNetwork :=
  mkNetwork (<["A" := ["X"; "Y"]]> (<["X" := []]> (<["Y" := []]> ∅))).

Definition mel_example : MELScript :=
  mkMEL (<[default_key := NetNdl_of net_example]> ∅) (Some default_key).

(** A host whose lookup returns no node for the name B and one node for any
    other name, in one and the same network. *)
Definition empty_lookup_host : Host :=
  mkHost OverrideModelNameAndSetDefaultModel_spec
         (fun symbol => if decide (symbol = "B") then ret ([], default_key)
                        else ret ([symbol], default_key))
         (fun _ _ _ => ret tt)
         SetInput_spec
         int_of_string
         (fun _ _ => ret tt).
End MELSpec.

(** ** A small NDL program in the store

    The macro [foo(a) = [ p = 1 ; z = Plus(a) ]] and, in the calling script,
    the call [r = foo(3, p=5)], a call [q = foo()] that supplies nothing,
    [x = nothing] where [nothing] names no symbol, and a variable [loop]
    whose value is its own name; the macro [bar(b) = [ bar = Times(b) ;
    w = Plus(b) ]], whose body defines a symbol of the macro's own name,
    and the call [s = bar(3)]. *)

Module NDLExample.
Import NDL.

Definition caller : ScriptId := 1%nat.
Definition body : ScriptId := 2%nat.
Definition bar_body : ScriptId := 3%nat.

Definition node (name value : string) (parent : ScriptId) (ty : NDLType)
    (formals : list string) (params : list NodeId) (script : option ScriptId)
  : NDLNode.t :=
  NDLNode.mk name value parent ty [] formals params None script.

Definition example_nodes : gmap NodeId NDLNode.t :=
  list_to_map
    [ (10%nat, node "r" "foo" caller ndlTypeMacroCall ["a"] [11; 12]%nat (Some body));
      (11%nat, node "unnamed1" "3" caller ndlTypeConstant [] [] None);
      (12%nat, node "p" "5" caller ndlTypeOptionalParameter [] [] None);
      (13%nat, node "q" "foo" caller ndlTypeMacroCall ["a"] [] (Some body));
      (14%nat, node "x" "nothing" caller ndlTypeVariable [] [] None);
      (15%nat, node "loop" "loop" caller ndlTypeVariable [] [] None);
      (16%nat, node "s" "bar" caller ndlTypeMacroCall ["b"] [11]%nat (Some bar_body));
      (20%nat, node "z" "Plus" body ndlTypeFunction [] [22]%nat None);
      (21%nat, node "p" "1" body ndlTypeConstant [] [] None);
      (22%nat, node "a" "a" body ndlTypeParameter [] [] None);
      (23%nat, node "later" "later" body ndlTypeUndetermined [] [] None);
      (30%nat, node "bar" "Times" bar_body ndlTypeFunction [] [32]%nat None);
      (31%nat, node "w" "Plus" bar_body ndlTypeFunction [] [32]%nat None);
      (32%nat, node "b" "b" bar_body ndlTypeParameter [] [] None) ].

Definition caller_script : NDLScript.t :=
  NDLScript.mk EmptyString [10; 13; 14; 16]%nat
    (list_to_map [("r", Some 10%nat); ("q", Some 13%nat); ("x", Some 14%nat);
                  ("loop", Some 15%nat); ("s", Some 16%nat)])
    false [10; 11; 12; 13; 14; 15; 16]%nat.

Definition body_script : NDLScript.t :=
  NDLScript.mk EmptyString [21; 20]%nat
    (list_to_map [("a", Some 22%nat); ("p", Some 21%nat); ("z", Some 20%nat);
                  ("later", Some 23%nat)])
    false [22; 21; 20; 23]%nat.

Definition bar_script : NDLScript.t :=
  NDLScript.mk EmptyString [30; 31]%nat
    (list_to_map [("b", Some 32%nat); ("bar", Some 30%nat); ("w", Some 31%nat)])
    false [32; 30; 31]%nat.

Definition example_scripts : gmap ScriptId NDLScript.t :=
  list_to_map
    [ (s_global, NDLScript.mk EmptyString [] ∅ false []);
      (caller, caller_script);
      (body, body_script);
      (bar_body, bar_script) ].

(** The nodes of the calls and parameters the properties are tried on. *)
Definition call_r : NDLNode.t :=
  node "r" "foo" caller ndlTypeMacroCall ["a"] [11; 12]%nat (Some body).
Definition call_q : NDLNode.t :=
  node "q" "foo" caller ndlTypeMacroCall ["a"] [] (Some body).
Definition param_p : NDLNode.t :=
  node "p" "5" caller ndlTypeOptionalParameter [] [] None.

(** The engine of the example keeps the list of the nodes it was asked to
    evaluate, latest first. *)
Definition logging_evaluator : NDLNodeEvaluator (list NodeId) :=
  mkEvaluator
    (fun node _ _ => modify (fun st => mkStore (nodes st) (scripts st) (node :: hostState st)))
    (fun _ _ => None)
    (fun _ => ret tt).

Definition example_store : Store (list NodeId) :=
  mkStore example_nodes example_scripts [].

(** The store of the example once the parameters of the call [r] are bound,
    the script of [foo] at that point, and the store once the body has been
    evaluated. *)
Definition after_binding : Store (list NodeId) :=
  snd ((ClearEvalValues body;;
        bind_parameters logging_evaluator 10%nat body 0 [11; 12]%nat) example_store).

Definition body_bound : NDLScript.t :=
  NDLScript.set_symbols (fun m => <[key "p" := Some 12%nat]> (<[key "a" := Some 11%nat]> m))
    body_script.

Definition after_body : Store (list NodeId) :=
  snd (Evaluate logging_evaluator 0 body "r" ndlPassInitial None after_binding).
End NDLExample.

(** ** ModelEditLanguage.cpp: the vocabulary of the dispatcher *)

Module MELCommands.

(** The names, with their alternates, that [CallFunction] tests a token
    against, in the order of the tests. *)
Definition command_names : list (string * option string) :=
  [ ("CreateModel", None); ("CreateModelWithName", None); ("LoadModel", None);
    ("LoadModelWithName", None); ("LoadNDLSnippet", None);
    ("SaveDefaultModel", None); ("SaveModel", None); ("SetDefaultModel", None);
    ("UnloadModel", None); ("DumpModel", Some "Dump"); ("DumpNode", None);
    ("CopyNode", Some "Copy"); ("CopySubTree", None);
    ("CopyNodeInputs", Some "CopyInputs"); ("SetNodeInput", Some "SetInput");
    ("SetNodeInputs", Some "SetInputs"); ("SetProperty", None);
    ("SetPropertyForSubTree", None); ("RemoveNode", Some "Remove");
    ("DeleteNode", Some "Delete"); ("Rename", None) ].

(** The default of the interpreter, when set, points to a registered
    entry. *)
Definition default_registered (mel : MEL.MELScript) : Prop :=
  forall d, MEL.m_netNdlDefault mel = Some d -> is_Some (MEL.m_mapNameToNetNdl mel !! d).

(** Two registered models, the second one the default. *)
Definition two_models : MEL.MELScript :=
  MEL.mkMEL (<["m1" := MEL.NetNdl_of MEL.new_ComputationNetwork]>
               (<["m2" := MEL.NetNdl_of MEL.new_ComputationNetwork]> ∅))
            (Some "m2").

(** A host whose lookup places the name A in the model m1 and any other
    name in the model m2. *)
Definition two_network_host : MEL.Host :=
  MEL.mkHost MELSpec.OverrideModelNameAndSetDefaultModel_spec
    (fun symbol => if decide (symbol = "A") then ret ([symbol], "m1")
                   else ret ([symbol], "m2"))
    (fun _ _ _ => ret tt)
    MELSpec.SetInput_spec
    MELSpec.int_of_string
    (fun _ _ => ret tt).
End MELCommands.

(** ** NetworkDescriptionLanguage.h: further members *)

Module NDLMembers.
Import NDL.

(** [!_strcmpi(a, b)]: equality of C strings up to case. *)
Definition strcmpi_eq (a b : string) : bool :=
  String.eqb (lower (c_str a)) (lower (c_str b)).

Definition clear_children (s : NDLScript.t) : NDLScript.t :=
  NDLScript.mk (NDLScript.m_baseName s) (NDLScript.m_script s) (NDLScript.m_symbols s)
    (NDLScript.m_noDefinitions s) [].

Definition clear_script (s : NDLScript.t) : NDLScript.t :=
  NDLScript.mk (NDLScript.m_baseName s) [] (NDLScript.m_symbols s)
    (NDLScript.m_noDefinitions s) (NDLScript.m_children s).

Section Members.
Context {H : Type}.
Local Abbreviation St := (Store H).

(** The loop of [NDLNode::GetParameters(optional)]. *)
Fixpoint GetParameters_loop (m_parameters : list NodeId) (optional : bool)
    (result : list NodeId) : M St (list NodeId) :=
  match m_parameters with
  | [] => ret result
  | param :: rest =>
      n ← getNode param;
      let optParam := bool_decide (NDLNode.m_type n = ndlTypeOptionalParameter) in
      GetParameters_loop rest optional
        (if Bool.eqb optParam optional then result ++ [param] else result)
  end.

(** [NDLNode::GetParameters(optional)]: either just the optional or just
    the regular parameters. *)
Definition GetParameters (this : NodeId) (optional : bool) : M St (list NodeId) :=
  me ← getNode this;
  GetParameters_loop (NDLNode.m_parameters me) optional [].

(** The loop of [NDLNode::GetOptionalParameter(name, default)]. *)
Fixpoint GetOptionalParameter_loop (m_parameters : list NodeId) (name default : string)
  : M St string :=
  match m_parameters with
  | [] => ret default
  | param :: rest =>
      n ← getNode param;
      let optParam := bool_decide (NDLNode.m_type n = ndlTypeOptionalParameter) in
      if optParam && strcmpi_eq (NDLNode.m_name n) name then ret (NDLNode.m_value n)
      else GetOptionalParameter_loop rest name default
  end.

(** [NDLNode::GetOptionalParameter(name, default)] *)
Definition GetOptionalParameter (this : NodeId) (name default : string) : M St string :=
  me ← getNode this;
  GetOptionalParameter_loop (NDLNode.m_parameters me) name default.

(** [delete node]: the object leaves the store; deleting what is no longer
    there is the use of a dangling pointer. *)
Definition delete_node (p : NodeId) : M St unit :=
  fun st => match nodes st !! p with
            | Some _ => (Ok tt, mkStore (delete p (nodes st)) (scripts st) (hostState st))
            | None => (Fault Dangling, st)
            end.

(** [NDLScript::Clear] *)
Definition Clear (this : ScriptId) : M St unit :=
  s ← getScript this;
  for_each (NDLScript.m_children s) delete_node;;
  updScript this clear_children;;
  s ← getScript this;
  for_each (NDLScript.m_script s) delete_node;;
  updScript this clear_script;;
  updScript this (NDLScript.set_symbols (fun _ => ∅)).

(** The pointer [p] refers to a node of the store. *)
Definition allocated (st : St) (p : NodeId) : Prop := is_Some (nodes st !! p).

(** The node at [p] is an optional (name=value) parameter. *)
Definition is_optional (st : St) (p : NodeId) : bool :=
  match nodes st !! p with
  | Some n => bool_decide (NDLNode.m_type n = ndlTypeOptionalParameter)
  | None => false
  end.

(** The node at [p] is an optional parameter named [name], up to case. *)
Definition answers (st : St) (name : string) (p : NodeId) : Prop :=
  exists n, nodes st !! p = Some n
            /\ NDLNode.m_type n = ndlTypeOptionalParameter
            /\ strcmpi_eq (NDLNode.m_name n) name = true.

(** [p] leads to [c] through [k] references: each node on the way is a
    Variable, Parameter or DotParameter whose value [FindNode] resolves to
    the next node, and [c] is the first node that is not a reference. *)
Inductive resolves (st : St) : NodeId -> nat -> NodeId -> Prop :=
  | resolves_here p n :
      nodes st !! p = Some n ->
      is_reference (NDLNode.m_type n) = false ->
      resolves st p 0 p
  | resolves_step p n q k c :
      nodes st !! p = Some n ->
      is_reference (NDLNode.m_type n) = true ->
      FindNode p (NDLNode.m_value n) true st = (Ok (Some q), st) ->
      resolves st q k c ->
      resolves st p (S k) c.
End Members.
End NDLMembers.

(** ** A second store: references and parameters

    In the script: [c = 42], [v = c], [w = v], [f = Plus(c)] and the call
    [t = Times(c, rate=0.5, RATE=0.9)] with one positional and two optional
    parameters; the global script defines [g = 7], and [c] as another
    constant. *)

Module NDLChain.
Import NDL.

Definition main : ScriptId := 1%nat.

Definition chain_nodes : gmap NodeId NDLNode.t :=
  list_to_map
    [ (1%nat, NDLExample.node "c" "42" main ndlTypeConstant [] [] None);
      (2%nat, NDLExample.node "v" "c" main ndlTypeVariable [] [] None);
      (3%nat, NDLExample.node "w" "v" main ndlTypeVariable [] [] None);
      (4%nat, NDLExample.node "f" "Plus" main ndlTypeFunction [] [1]%nat None);
      (5%nat, NDLExample.node "g" "7" s_global ndlTypeConstant [] [] None);
      (6%nat, NDLExample.node "c" "0" s_global ndlTypeConstant [] [] None);
      (7%nat, NDLExample.node "t" "Times" main ndlTypeFunction [] [1; 8; 9]%nat None);
      (8%nat, NDLExample.node "rate" "0.5" main ndlTypeOptionalParameter [] [] None);
      (9%nat, NDLExample.node "RATE" "0.9" main ndlTypeOptionalParameter [] [] None);
      (10%nat, NDLExample.node "u" "f" main ndlTypeVariable [] [] None) ].

Definition main_script : NDLScript.t :=
  NDLScript.mk EmptyString [1; 2; 3; 4; 7; 10]%nat
    (list_to_map [("c", Some 1%nat); ("v", Some 2%nat); ("w", Some 3%nat);
                  ("f", Some 4%nat); ("t", Some 7%nat); ("u", Some 10%nat)])
    false [1; 2; 3; 4; 7; 8; 9; 10]%nat.

Definition global_script : NDLScript.t :=
  NDLScript.mk EmptyString []
    (list_to_map [("g", Some 5%nat); ("c", Some 6%nat)]) false [5; 6]%nat.

Definition chain_store : Store unit :=
  mkStore chain_nodes (list_to_map [(s_global, global_script); (main, main_script)]) tt.

(** A script whose statements are not among its children, as for nodes
    owned by another script. *)
Definition detached_script : NDLScript.t :=
  NDLScript.mk EmptyString [5]%nat (list_to_map [("g", Some 5%nat)]) false [8; 9]%nat.

Definition detached_store : Store unit :=
  mkStore chain_nodes (list_to_map [(s_global, global_script); (main, detached_script)]) tt.
End NDLChain.

(** ** A nested call

    The store of the first example once the call [r = foo(3, p=5)] has
    bound its parameters, with one more node: inside the body of [foo], the
    call [inner = bar(a)] that passes the parameter [a] of [foo] on. *)

Module NDLNested.
Import NDL.

Definition inner_call : NDLNode.t :=
  NDLExample.node "inner" "bar" NDLExample.body ndlTypeMacroCall ["b"] [22]%nat
    (Some NDLExample.bar_body).

Definition nested_store : Store (list NodeId) :=
  mkStore (<[40%nat := inner_call]> (nodes NDLExample.after_binding))
    (scripts NDLExample.after_binding) (hostState NDLExample.after_binding).
End NDLNested.

(** ** An engine that leaves values in the nodes *)

Module NDLMarked.
Import NDL.

(** The engine records, as the evaluation handle of a node it is asked to
    evaluate, the address of that node. *)
Definition marking_evaluator : NDLNodeEvaluator (list NodeId) :=
  mkEvaluator
    (fun node _ _ => updNode node (NDLNode.SetEvalValue (Some node)))
    (fun _ _ => None)
    (fun _ => ret tt).

Definition after_body : Store (list NodeId) :=
  snd (Evaluate marking_evaluator 0 NDLExample.body "r" ndlPassInitial None
         NDLExample.after_binding).
(** The store the call [r = foo(3, p=5)] leaves with that engine: the
    statements of the body (nodes 21 and 20) and the call (node 10) hold a
    handle. *)
Definition after_call : Store (list NodeId) :=
  snd (EvaluateMacro marking_evaluator 1 10%nat EmptyString ndlPassInitial
         NDLExample.example_store).
End NDLMarked.

(** ** A macro call, part by part *)

Module NDLCall.
Import NDL.

(** Two nodes that differ at most in their evaluation handle. *)
Definition same_members (n n' : NDLNode.t) : Prop :=
  NDLNode.m_name n' = NDLNode.m_name n
  /\ NDLNode.m_value n' = NDLNode.m_value n
  /\ NDLNode.m_parent n' = NDLNode.m_parent n
  /\ NDLNode.m_type n' = NDLNode.m_type n
  /\ NDLNode.m_paramString n' = NDLNode.m_paramString n
  /\ NDLNode.m_paramMacro n' = NDLNode.m_paramMacro n
  /\ NDLNode.m_parameters n' = NDLNode.m_parameters n
  /\ NDLNode.m_script n' = NDLNode.m_script n.

Section Call.
Context {H : Type}.
Variable nodeEval : NDLNodeEvaluator H.
Local Abbreviation St := (Store H).

(** [NDLNode::EvaluateMacro] from the evaluation of the macro script on:
    what a call does once the loop over its actual parameters has ended. *)
Definition EvaluateMacro_body (fuel : nat) (this : NodeId) (script : ScriptId)
    (baseName : string) (pass : NDLPass) : M St (option NodeId) :=
  me ← getNode this;
  let newBase := newBase_of baseName (NDLNode.m_name me) in
  (* now evaluate the contained macro script *)
  nodeResult ← Evaluate nodeEval fuel script newBase pass None;
  (* look for a symbol that is identical to the macro name, if it exists
     this is the return value *)
  me ← getNode this;
  nodeMacroName ← FindSymbol script (NDLNode.m_value me) false;
  let nodeResult := match nodeMacroName with
                    | Some _ => nodeMacroName
                    | None => nodeResult
                    end in
  (* set the eval node to be the same as the return value *)
  match nodeResult with
  | Some r =>
      res ← getNode r;
      updNode this (NDLNode.SetEvalValue (NDLNode.m_eval res))
  | None => ret tt
  end;;
  ret nodeResult.

(** What the binding of parameters can change in a store: evaluation
    handles and symbol tables.  No node or script is released, a node keeps
    its other members, and the engine's state stays. *)
Definition same_shape (st st' : St) : Prop :=
  (forall p n, nodes st !! p = Some n ->
     exists n', nodes st' !! p = Some n' /\ same_members n n')
  /\ (forall sc, is_Some (scripts st !! sc) -> is_Some (scripts st' !! sc))
  /\ hostState st' = hostState st.

Definition keeps_shape {A : Type} (m : M St A) : Prop :=
  forall st, same_shape st (snd (m st)).
End Call.
End NDLCall.

(** ** Surplus parameters

    The first example with one more call, [t = foo(3, 4)]: two positional
    parameters for the one formal parameter of [foo]. *)

Module NDLSurplus.
Import NDL.

Definition call_t : NDLNode.t :=
  NDLExample.node "t" "foo" NDLExample.caller ndlTypeMacroCall ["a"] [11; 18]%nat
    (Some NDLExample.body).

Definition surplus_store : Store (list NodeId) :=
  mkStore
    (<[17%nat := call_t]>
       (<[18%nat := NDLExample.node "unnamed2" "4" NDLExample.caller ndlTypeConstant [] [] None]>
          NDLExample.example_nodes))
    NDLExample.example_scripts [].

(** The store of the first example once the one formal position of the
    call [r = foo(3, p=5)] is bound. *)
Definition formals_bound : Store (list NodeId) :=
  snd ((ClearEvalValues NDLExample.body;;
        bind_parameters NDLExample.logging_evaluator 10%nat NDLExample.body 0 [11]%nat)
         NDLExample.example_store).
End NDLSurplus.

(** One failed test of the dispatcher, given that every test fails
    ([Hall]) and that a failed test leaves the token as it is
    ([Hunchanged]): the token goes on to the next test. *)
Ltac skip_test Hall Hunchanged :=
  match goal with
  | |- context [EqualInsensitive ?t ?n ?a] =>
      let Hf := fresh "Hf" in
      let Hu := fresh "Hu" in
      assert (Hf : fst (EqualInsensitive t n a) = false)
        by (apply Hall; simpl; repeat (first [left; reflexivity | right]));
      pose proof (Hunchanged t n a Hf) as Hu;
      destruct (EqualInsensitive t n a) as [? ?];
      cbn [fst snd] in Hf, Hu; rewrite Hf, Hu; clear Hf Hu; cbv beta iota
  end.

(** ** Proof automation *)

(** Evaluates the tests of the dispatcher on a literal command token. *)
Ltac eval_matcher :=
  repeat match goal with
    | |- context [EqualInsensitive ?a ?b ?c] =>
        let r := eval vm_compute in (EqualInsensitive a b c) in
        change (EqualInsensitive a b c) with r; cbv beta iota
    end.

Ltac unfold_monad :=
  unfold mbind, M_bind, bind, mret, M_ret, ret, raise, crash, diverge, get, modify in *.

(** Facts of the form [keeps_shape m] about the primitive operations. *)
Create HintDb keeps.

(** Goals of the form [keeps_shape m], by the structure of [m];
    [bind_lemma] is the rule for one computation followed by another. *)
Ltac keeps_shape_step :=
  first
    [ progress intros
    | match goal with
      | |- NDLCall.keeps_shape (if ?b then _ else _) => destruct b
      | |- NDLCall.keeps_shape (match ?x with _ => _ end) => destruct x
      end ].

Ltac keeps_shape_tac bind_lemma :=
  repeat first
    [ solve [auto with keeps]
    | apply bind_lemma
    | keeps_shape_step ].

(** * Properties *)

(** ** Strings *)

Section StringFacts.
Import CStr.

Lemma strnicmp_eq_prefix (a b : string) :
  strnicmp_eq a b (String.length a) = true <-> prefix_nocase a b.
Proof.
  revert b. induction a as [|x a IH]; intros b; simpl.
  - split; [intros _; exists (lower b); reflexivity | reflexivity].
  - destruct b as [|y b]; simpl.
    + split; [discriminate | intros [rest Hr]; discriminate].
    + destruct (Ascii.eqb (tolower x) (tolower y)) eqn:E.
      * apply Ascii.eqb_eq in E. rewrite IH. unfold prefix_nocase; simpl.
        split; intros [rest Hr]; exists rest; [rewrite Hr, E | injection Hr]; auto.
      * apply Ascii.eqb_neq in E. split; [discriminate|].
        intros [rest Hr]. simpl in Hr. injection Hr as Hc _. congruence.
Qed.

(** When the match fails the in/out argument keeps its contents. *)
Lemma EqualInsensitive_false_unchanged (string1 string2 : string) alternate :
  fst (EqualInsensitive string1 string2 alternate) = false ->
  snd (EqualInsensitive string1 string2 alternate) = string1.
Proof.
  unfold EqualInsensitive.
  destruct alternate as [alt|];
    repeat match goal with
      | |- context [strnicmp_eq ?a ?b ?n] => destruct (strnicmp_eq a b n)
      | |- context [(?a <? ?b)%nat] => destruct (a <? b)%nat
      end; cbn [fst snd andb negb]; done.
Qed.
End StringFacts.

(** ** C5 *)

(** C5 (amended).  A token without embedded NUL matches a command name
    exactly when it is a case-insensitive prefix of the name, or of the
    alternate name the call site supplies, and is at least half as long
    (integer division) as the string it is a prefix of.  By the name alone
    the token Du does not match DumpModel and the token Dump does; with the
    alternate name Dump that the dispatcher supplies, Du matches too and is
    replaced by DumpModel. *)
Theorem C5_EqualInsensitive_rule (token name : string) (alternate : option string) :
  c_str token = token ->
  (fst (EqualInsensitive token name alternate) = true <->
     (prefix_nocase token (c_str name) /\ strlen name / 2 <= String.length token)
     \/ (exists alt, alternate = Some alt /\ prefix_nocase token (c_str alt)
                     /\ strlen alt / 2 <= String.length token))
  /\ fst (EqualInsensitive "Du" "DumpModel" None) = false
  /\ fst (EqualInsensitive "Dump" "DumpModel" None) = true
  /\ EqualInsensitive "Du" "DumpModel" (Some "Dump") = (true, "DumpModel").
Proof.
  intros Htok. split; [|by vm_compute].
  unfold EqualInsensitive. rewrite Htok.
  pose proof (strnicmp_eq_prefix token (c_str name)) as P1.
  destruct (strnicmp_eq token (c_str name) (String.length token)) eqn:E1.
  - destruct (String.length token <? strlen name / 2)%nat eqn:L1; cbn [fst snd andb negb].
    + apply Nat.ltb_lt in L1.
      destruct alternate as [alt|]; cbn [fst snd andb negb].
      * rewrite Htok.
        pose proof (strnicmp_eq_prefix token (c_str alt)) as P2.
        destruct (strnicmp_eq token (c_str alt) (String.length token)) eqn:E2.
        -- destruct (String.length token <? strlen alt / 2)%nat eqn:L2; cbn [fst snd andb negb].
           ++ apply Nat.ltb_lt in L2. split; [discriminate|].
              intros [[_ ?]|(a & [= <-] & _ & ?)]; lia.
           ++ apply Nat.ltb_ge in L2. split; [|done].
              intros _. right. exists alt. split; [done|]. split; [by apply P2 | lia].
        -- cbn [fst snd andb negb]. split; [discriminate|].
           intros [[_ ?]|(a & [= <-] & Hp & ?)]; [lia|].
           apply P2 in Hp. discriminate.
      * split; [discriminate|]. intros [[_ ?]|(a & ? & _)]; [lia | discriminate].
    + apply Nat.ltb_ge in L1.
      assert (Hl : prefix_nocase token (c_str name) /\ strlen name / 2 <= String.length token)
        by (split; [by apply P1 | lia]).
      destruct alternate as [alt|]; cbn [fst snd andb negb]; split; auto.
  - cbn [fst snd andb negb].
    assert (Hn : ~ prefix_nocase token (c_str name)) by (intros Hp; apply P1 in Hp; discriminate).
    destruct alternate as [alt|]; cbn [fst snd andb negb].
    + rewrite Htok.
      pose proof (strnicmp_eq_prefix token (c_str alt)) as P2.
      destruct (strnicmp_eq token (c_str alt) (String.length token)) eqn:E2.
      * destruct (String.length token <? strlen alt / 2)%nat eqn:L2; cbn [fst snd andb negb].
        -- apply Nat.ltb_lt in L2. split; [discriminate|].
           intros [[? _]|(a & [= <-] & _ & ?)]; [done | lia].
        -- apply Nat.ltb_ge in L2. split; [|done].
           intros _. right. exists alt. split; [done|]. split; [by apply P2 | lia].
      * cbn [fst snd andb negb]. split; [discriminate|].
        intros [[? _]|(a & [= <-] & Hp & ?)]; [done|].
        apply P2 in Hp. discriminate.
    + split; [discriminate|]. intros [[? _]|(a & ? & _)]; [done | discriminate].
Qed.

Lemma C5_EqualInsensitive_rule_witness :
  c_str "Dump" = "Dump" /\
  (fst (EqualInsensitive "Dump" "DumpModel" (Some "Dump")) = true <->
     (prefix_nocase "Dump" (c_str "DumpModel") /\ strlen "DumpModel" / 2 <= String.length "Dump")
     \/ (exists alt, Some "Dump" = Some alt /\ prefix_nocase "Dump" (c_str alt)
                     /\ strlen alt / 2 <= String.length "Dump")).
Proof.
  split; [reflexivity|].
  apply (C5_EqualInsensitive_rule "Dump" "DumpModel" (Some "Dump")). reflexivity.
Defined.

(** C5 as stated fails: the token Du is shorter than half of DumpModel, yet
    the dispatcher's test for DumpModel accepts it, and a call with that
    token enters the DumpModel command (whose parameter check then answers). *)
Lemma C5_Du_resolves_to_DumpModel :
  fst (EqualInsensitive "Du" "DumpModel" (Some "Dump")) = true
  /\ ~ (String.length "DumpModel" / 2 <= String.length "Du")
  /\ fst (MEL.CallFunction MELSpec.spec_host "Du" [] MELSpec.mel_empty)
     = Raise (mkError "Invalid number of parameters. Valid parameters: DumpNetwork(modelName, fileName, [includeData=false|true])" []).
Proof.
  split; [by vm_compute|]. split; [vm_compute; lia | by vm_compute].
Qed.

(** ** C10 *)

Section SetPropertyFacts.
Context {Node : Type} `{EqDecision Node}.
Implicit Types (node : Node) (arr : list Node).

Lemma occurrences_cons node x arr :
  occurrences node (x :: arr)
  = if decide (x = node) then S (occurrences node arr) else occurrences node arr.
Proof.
  unfold occurrences. rewrite filter_cons. by destruct (decide (x = node)).
Qed.

Lemma occurrences_app node arr1 arr2 :
  occurrences node (arr1 ++ arr2) = occurrences node arr1 + occurrences node arr2.
Proof. unfold occurrences. by rewrite filter_app, length_app. Qed.

Lemma occurrences_zero node arr : occurrences node arr = 0 <-> node ∉ arr.
Proof.
  induction arr as [|x arr IH]; [split; [intros _; apply not_elem_of_nil | done]|].
  rewrite occurrences_cons, not_elem_of_cons.
  destruct (decide (x = node)) as [->|Hne]; [|rewrite IH]; intuition congruence.
Qed.

(** The search loop stops at the first occurrence. *)
Lemma find_node_None node arr : find_node node arr = None <-> node ∉ arr.
Proof.
  induction arr as [|x arr IH]; simpl; [split; [intros _; apply not_elem_of_nil | done]|].
  rewrite not_elem_of_cons.
  destruct (decide (x = node)) as [->|Hne]; [intuition congruence|].
  destruct (find_node node arr); simpl; intuition congruence.
Qed.

Lemma find_node_Some node arr i :
  find_node node arr = Some i ->
  arr !! i = Some node /\ occurrences node (delete i arr) = pred (occurrences node arr)
  /\ (forall x, x ∈ delete i arr -> x ∈ arr)
  /\ (NoDup arr -> NoDup (delete i arr)).
Proof.
  revert i. induction arr as [|x arr IH]; intros i; simpl; [done|].
  destruct (decide (x = node)) as [->|Hne].
  - intros [= <-]. simpl. rewrite occurrences_cons, decide_True by done.
    repeat split; [by constructor|]. by inversion 1.
  - destruct (find_node node arr) as [j|]; simpl; [|done].
    intros [= <-]. destruct (IH j eq_refl) as (Hl & Ho & Hin & Hnd). simpl.
    rewrite !occurrences_cons, !decide_False by done.
    repeat split; [done..| |].
    + intros y [->|Hy]%elem_of_cons; [left | right; auto].
    + inversion 1; subst. constructor; auto.
Qed.
End SetPropertyFacts.

(** C10.  In an array where the node occurs at most once, a call with
    [set = true] leaves it occurring exactly once and a second identical
    call changes nothing; a call with [set = false] leaves it absent and a
    second identical call changes nothing; a call with [set = false] on an
    array that does not hold the node leaves the array as it is; and an
    array without duplicates stays without duplicates under either call. *)
Theorem C10_SetProperty_idempotent_duplicate_free
    {Node : Type} `{EqDecision Node} (node : Node) (arr : list Node) :
  occurrences node arr <= 1 ->
  occurrences node (SetProperty node arr true) = 1
  /\ SetProperty node (SetProperty node arr true) true = SetProperty node arr true
  /\ occurrences node (SetProperty node arr false) = 0
  /\ SetProperty node (SetProperty node arr false) false = SetProperty node arr false
  /\ (occurrences node arr = 0 -> SetProperty node arr false = arr)
  /\ (NoDup arr ->
      NoDup (SetProperty node arr true) /\ NoDup (SetProperty node arr false)).
Proof.
  intros Hle. unfold SetProperty.
  destruct (find_node node arr) as [i|] eqn:Hf.
  - destruct (find_node_Some _ _ _ Hf) as (Hl & Ho & Hin & Hnd).
    assert (Hocc : occurrences node arr = 1).
    { assert (occurrences node arr <> 0); [|lia].
      rewrite occurrences_zero. intros Hn. apply Hn. by apply (list_elem_of_lookup_2 _ i). }
    assert (Hgone : find_node node (delete i arr) = None).
    { apply find_node_None, occurrences_zero. lia. }
    cbn iota. rewrite ?Hf, ?Hgone. repeat split; auto; lia.
  - assert (Hz : occurrences node arr = 0) by by apply occurrences_zero, find_node_None.
    assert (Hfound : exists j, find_node node (arr ++ [node]) = Some j).
    { destruct (find_node node (arr ++ [node])) eqn:E; [eauto|].
      apply find_node_None in E. exfalso. apply E. set_solver. }
    destruct Hfound as [j Hj].
    cbn iota. rewrite ?Hf, ?Hj.
    rewrite occurrences_app, Hz, occurrences_cons, decide_True by done.
    repeat split; auto.
    apply NoDup_app. repeat split; [done| |apply NoDup_singleton].
    intros x Hx ->%list_elem_of_singleton. by apply find_node_None in Hf.
Qed.

Lemma C10_SetProperty_witness :
  occurrences 7 [3; 7; 5] <= 1 /\
  occurrences 7 (SetProperty 7 [3; 7; 5] true) = 1
  /\ SetProperty 7 (SetProperty 7 [3; 7; 5] true) true = SetProperty 7 [3; 7; 5] true
  /\ occurrences 7 (SetProperty 7 [3; 7; 5] false) = 0
  /\ SetProperty 7 (SetProperty 7 [3; 7; 5] false) false = SetProperty 7 [3; 7; 5] false
  /\ (occurrences 7 [3; 7; 5] = 0 -> SetProperty 7 [3; 7; 5] false = [3; 7; 5])
  /\ (NoDup [3; 7; 5] ->
      NoDup (SetProperty 7 [3; 7; 5] true) /\ NoDup (SetProperty 7 [3; 7; 5] false)).
Proof.
  split; [vm_compute; lia|].
  apply (C10_SetProperty_idempotent_duplicate_free 7 [3; 7; 5]). vm_compute. lia.
Defined.

(** ** The command dispatcher *)

Section DispatcherFacts.
Import CStr MEL MELSpec.

(** A successful match against the name alone leaves the full name in the
    in/out argument. *)
Lemma EqualInsensitive_true_full (string1 string2 : string) :
  c_str string1 = string1 ->
  fst (EqualInsensitive string1 string2 None) = true ->
  snd (EqualInsensitive string1 string2 None) = c_str string2.
Proof.
  intros Hc. unfold EqualInsensitive, strcmp_ne. rewrite Hc.
  destruct (strnicmp_eq string1 (c_str string2) (String.length string1));
    destruct (String.length string1 <? strlen string2 / 2)%nat;
    cbn [fst snd andb negb]; try done.
  intros _. destruct (String.eqb string1 (c_str string2)) eqn:E; cbn [negb]; [|done].
  by apply String.eqb_eq in E.
Qed.

(** What the interpreter does with a token that selects CreateModel and an
    empty parameter list: the new model is installed, and then the test for
    CreateModelWithName, which is not chained by [else], accepts the token
    as well and rejects the empty parameter list. *)
Lemma CallFunction_CreateModel (host : Host) (mel : MELScript) :
  CallFunction host "CreateModel" [] mel
  = (OverrideModelNameAndSetDefaultModel host new_ComputationNetwork None;;
     raise "Invalid number of parameters. Valid parameters: CreateModelWithName(modelName). newly created model always becomes the new default." [])
      mel.
Proof.
  unfold CallFunction. eval_matcher. unfold check_count. cbn [length Nat.ltb Nat.leb orb Nat.add].
  unfold_monad. by destruct (OverrideModelNameAndSetDefaultModel _ _ _ _) as [[]].
Qed.

(** The size check of [SetNodeInput] on the input operand reports the first
    parameter: with a lookup that returns no node for B, the error names A. *)
Lemma SetNodeInput_size_check_reports_first_parameter :
  fst (CallFunction empty_lookup_host "SetNodeInput" ["A"; "0"; "B"] mel_example)
  = Raise (mkError "SetNodeInput() must have a single value input, %s doesn't represent one item"
                   [ArgStr "A"]).
Proof. by vm_compute. Qed.
End DispatcherFacts.

(** ** C1 *)

(** C1 (the code departs from it).  Every invocation whose token selects
    CreateModel (a token without embedded NUL that the matcher accepts for
    that name), given zero arguments, installs the new model and then
    raises the parameter-count error of CreateModelWithName: it never
    completes without an error. *)
Theorem C1_CreateModel_without_arguments_raises
    (host : MEL.Host) (mel : MEL.MELScript) (token : string) :
  c_str token = token ->
  fst (EqualInsensitive token "CreateModel" None) = true ->
  MEL.CallFunction host token [] mel
  = (MEL.OverrideModelNameAndSetDefaultModel host MEL.new_ComputationNetwork None;;
     raise "Invalid number of parameters. Valid parameters: CreateModelWithName(modelName). newly created model always becomes the new default." [])
      mel
  /\ fst (MEL.CallFunction host token [] mel) <> Ok tt.
Proof.
  intros Hc Hm.
  assert (Heq : MEL.CallFunction host token [] mel = MEL.CallFunction host "CreateModel" [] mel).
  { unfold MEL.CallFunction.
    pose proof (EqualInsensitive_true_full _ _ Hc Hm) as Hs.
    destruct (EqualInsensitive token "CreateModel" None) as [b name].
    cbn [fst snd] in Hm, Hs. subst b name.
    by eval_matcher. }
  rewrite Heq, CallFunction_CreateModel. split; [done|].
  unfold_monad.
  by destruct (MEL.OverrideModelNameAndSetDefaultModel _ _ _ _) as [[]].
Qed.

Lemma C1_CreateModel_witness :
  c_str "CreateModel" = "CreateModel"
  /\ fst (EqualInsensitive "CreateModel" "CreateModel" None) = true
  /\ fst (MEL.CallFunction MELSpec.spec_host "CreateModel" [] MELSpec.mel_empty) <> Ok tt.
Proof.
  split; [reflexivity|]. split; [reflexivity|].
  apply (C1_CreateModel_without_arguments_raises MELSpec.spec_host MELSpec.mel_empty "CreateModel");
    reflexivity.
Defined.

(** ** C4 *)

(** C4.  With the lookup of the specification, [SetNodeInput(A, n, B)] where
    A is defined and B is not defined in the target network raises the
    error that carries the missing symbol B, whatever the other host
    members do, and leaves the interpreter state, hence the input edges of
    A, as they were. *)
Theorem C4_SetNodeInput_missing_input
    (host : MEL.Host) (mel : MEL.MELScript) (A n B : string) :
  MEL.FindSymbols host = MELSpec.FindSymbols_spec ->
  MELSpec.defined mel A ->
  ~ MELSpec.defined mel B ->
  MEL.CallFunction host "SetNodeInput" [A; n; B] mel
  = (Raise (mkError "StateError: %s" [ArgStr B]), mel)
  /\ MELSpec.inputs_of (snd (MEL.CallFunction host "SetNodeInput" [A; n; B] mel)) A
     = MELSpec.inputs_of mel A.
Proof.
  intros Hfs [insA HA] HB.
  assert (HBn : MELSpec.inputs_of mel B = None).
  { destruct (MELSpec.inputs_of mel B) eqn:E; [|done]. exfalso. apply HB. by eexists. }
  assert (Hk : exists k, MEL.m_netNdlDefault mel = Some k).
  { unfold MELSpec.inputs_of, MELSpec.default_network in HA.
    destruct (MEL.m_netNdlDefault mel); [eauto | done]. }
  destruct Hk as [k Hk].
  assert (Hcall : MEL.CallFunction host "SetNodeInput" [A; n; B] mel
                  = (Raise (mkError "StateError: %s" [ArgStr B]), mel)).
  { unfold MEL.CallFunction. eval_matcher.
    unfold MEL.SetNodeInput_body, MEL.check_count, MEL.param.
    cbn [length Nat.ltb Nat.leb orb Nat.add nth]. rewrite Hfs.
    unfold MELSpec.FindSymbols_spec. unfold_monad.
    rewrite Hk, HA. cbv beta iota. by rewrite Hk, HBn. }
  rewrite Hcall. split; reflexivity.
Qed.

Lemma C4_SetNodeInput_witness :
  MELSpec.defined MELSpec.mel_example "A"
  /\ ~ MELSpec.defined MELSpec.mel_example "B"
  /\ MEL.CallFunction MELSpec.spec_host "SetNodeInput" ["A"; "0"; "B"] MELSpec.mel_example
     = (Raise (mkError "StateError: %s" [ArgStr "B"]), MELSpec.mel_example).
Proof.
  assert (HA : MELSpec.defined MELSpec.mel_example "A") by (by eexists).
  assert (HB : ~ MELSpec.defined MELSpec.mel_example "B") by (by intros [? [=]]).
  split; [exact HA|]. split; [exact HB|].
  apply (C4_SetNodeInput_missing_input MELSpec.spec_host MELSpec.mel_example "A" "0" "B");
    [reflexivity | exact HA | exact HB].
Defined.


(** ** The symbol table *)

Section StoreFacts.
Import NDL.
Context {H : Type}.
Implicit Types (st : Store H).

Lemma getScript_Some st this s :
  scripts st !! this = Some s -> getScript this st = (Ok s, st).
Proof. intros Hs. unfold getScript. by rewrite Hs. Qed.

Lemma getNode_Some st p n :
  nodes st !! p = Some n -> getNode p st = (Ok n, st).
Proof. intros Hn. unfold getNode. by rewrite Hn. Qed.

Lemma updScript_Some st this s f :
  scripts st !! this = Some s ->
  updScript this f st
  = (Ok tt, mkStore (nodes st) (<[this := f s]> (scripts st)) (hostState st)).
Proof. intros Hs. unfold updScript. unfold_monad. by rewrite (getScript_Some _ _ _ Hs). Qed.

Lemma updNode_Some st p n f :
  nodes st !! p = Some n ->
  updNode p f st
  = (Ok tt, mkStore (<[p := f n]> (nodes st)) (scripts st) (hostState st)).
Proof. intros Hn. unfold updNode. unfold_monad. by rewrite (getNode_Some _ _ _ Hn). Qed.

Lemma FindSymbol_plain_Some st this s symbol :
  scripts st !! this = Some s ->
  FindSymbol_plain this symbol st
  = (Ok (default None (NDLScript.m_symbols s !! key symbol)), st).
Proof.
  intros Hs. unfold FindSymbol_plain. unfold_monad. rewrite (getScript_Some _ _ _ Hs).
  by destruct (NDLScript.m_symbols s !! key symbol).
Qed.
(** [AddSymbol] by cases on the binding it finds. *)
Lemma AddSymbol_eq st this s symbol node :
  scripts st !! this = Some s ->
  AddSymbol this symbol node st
  = let st' := mkStore (nodes st)
                 (<[this := NDLScript.set_symbols (<[key symbol := node]>) s]> (scripts st))
                 (hostState st) in
    match NDLScript.m_symbols s !! key symbol with
    | Some (Some p) =>
        match nodes st !! p with
        | Some n =>
            if decide (NDLNode.m_type n = ndlTypeUndetermined) then (Ok tt, st')
            else (Raise (mkError "Symbol '%s' currently assigned to '%s' reassigning to a different value not allowed
"
                                 [ArgStr symbol; ArgStr (NDLNode.m_value n)]), st)
        | None => (Fault Dangling, st)
        end
    | Some None => (Fault NullDeref, st)
    | None => (Ok tt, st')
    end.
Proof.
  intros Hs. unfold AddSymbol. unfold_monad. rewrite (getScript_Some _ _ _ Hs).
  destruct (NDLScript.m_symbols s !! key symbol) as [[p|]|]; cbn [deref].
  - unfold getNode. destruct (nodes st !! p) as [n|]; [|done].
    destruct (decide _); [|done]. by rewrite (updScript_Some _ _ _ _ Hs).
  - done.
  - by rewrite (updScript_Some _ _ _ _ Hs).
Qed.

(** [AssignSymbol] on a symbol the table holds. *)
Lemma AssignSymbol_bound st this s symbol node old :
  scripts st !! this = Some s ->
  NDLScript.m_symbols s !! key symbol = Some old ->
  AssignSymbol this symbol node st
  = (Ok tt, mkStore (nodes st)
              (<[this := NDLScript.set_symbols (<[key symbol := node]>) s]> (scripts st))
              (hostState st)).
Proof.
  intros Hs Hold. unfold AssignSymbol. unfold_monad.
  by rewrite (getScript_Some _ _ _ Hs), Hold, (updScript_Some _ _ _ _ Hs).
Qed.
End StoreFacts.

(** ** C8 *)

(** C8.  [AddSymbol] raises its error exactly when the symbol is already in
    the table (names compared without case) bound to a node whose kind is
    not Undetermined, and then changes nothing; when the symbol is bound to
    an Undetermined node it is rebound to the new node without an error;
    when the symbol is absent it is inserted. *)
Theorem C8_AddSymbol_redefinition
    {H : Type} (st : NDL.Store H) (this : NDL.ScriptId) (s : NDL.NDLScript.t)
    (symbol : string) (node : option NDL.NodeId) :
  NDL.scripts st !! this = Some s ->
  let bound := NDL.NDLScript.m_symbols s !! NDL.key symbol in
  let st' := NDL.mkStore (NDL.nodes st)
               (<[this := NDL.NDLScript.set_symbols (<[NDL.key symbol := node]>) s]>
                  (NDL.scripts st))
               (NDL.hostState st) in
  ((exists e, fst (NDL.AddSymbol this symbol node st) = Raise e) <->
     (exists p n, bound = Some (Some p) /\ NDL.nodes st !! p = Some n
                  /\ NDL.NDLNode.m_type n <> ndlTypeUndetermined))
  /\ (forall p n, bound = Some (Some p) -> NDL.nodes st !! p = Some n ->
        NDL.NDLNode.m_type n <> ndlTypeUndetermined ->
        NDL.AddSymbol this symbol node st
        = (Raise (mkError "Symbol '%s' currently assigned to '%s' reassigning to a different value not allowed
"
                          [ArgStr symbol; ArgStr (NDL.NDLNode.m_value n)]), st))
  /\ (forall p n, bound = Some (Some p) -> NDL.nodes st !! p = Some n ->
        NDL.NDLNode.m_type n = ndlTypeUndetermined ->
        NDL.AddSymbol this symbol node st = (Ok tt, st'))
  /\ (bound = None -> NDL.AddSymbol this symbol node st = (Ok tt, st')).
Proof.
  intros Hs bound st'. subst bound st'.
  rewrite (AddSymbol_eq _ _ _ symbol node Hs).
  destruct (NDL.NDLScript.m_symbols s !! NDL.key symbol) as [[p|]|] eqn:Hb.
  - destruct (NDL.nodes st !! p) as [n|] eqn:Hn.
    + destruct (decide (NDL.NDLNode.m_type n = ndlTypeUndetermined)) as [Hu|Hu]; cbn [fst].
      * split; [split; [by intros [e ?]|]|].
        { intros (p' & n' & [= <-] & Hn' & Hty). congruence. }
        split; [intros p' n' [= <-]; congruence|].
        split; [done | done].
      * split; [split; [intros _; by exists p, n | by eexists]|].
        split; [intros p' n' [= <-] Hn'; by simplify_eq|].
        split; [intros p' n' [= <-] Hn'; by simplify_eq | done].
    + cbn [fst].
      split; [split; [by intros [e ?] | intros (p' & n' & [= <-] & Hn' & _); congruence]|].
      split; [intros p' n' [= <-]; congruence|].
      split; [intros p' n' [= <-]; congruence | done].
  - cbn [fst].
    split; [split; [by intros [e ?] | by intros (p' & n' & [=] & _)]|].
    by repeat split.
  - cbn [fst].
    split; [split; [by intros [e ?] | by intros (p' & n' & [=] & _)]|].
    by repeat split.
Qed.

Lemma C8_AddSymbol_witness :
  NDL.scripts NDLExample.example_store !! NDLExample.body = Some NDLExample.body_script
  /\ ((exists e, fst (NDL.AddSymbol NDLExample.body "P" (Some 11%nat) NDLExample.example_store)
                 = Raise e) <->
      (exists p n,
         NDL.NDLScript.m_symbols NDLExample.body_script !! NDL.key "P" = Some (Some p)
         /\ NDL.nodes NDLExample.example_store !! p = Some n
         /\ NDL.NDLNode.m_type n <> ndlTypeUndetermined)).
Proof.
  split; [reflexivity|].
  exact (proj1 (C8_AddSymbol_redefinition NDLExample.example_store NDLExample.body
                  NDLExample.body_script "P" (Some 11%nat) eq_refl)).
Defined.

(** The cases without an error on the first example: in the body of
    [foo] the symbol later is bound to an Undetermined node (node 23) and
    is rebound, under another spelling, to the node given; the symbol fresh
    is not in the table and is inserted. *)
Lemma AddSymbol_rebinds_undetermined_and_inserts_absent :
  NDL.binding NDLExample.example_store NDLExample.body "later" = Some (Some 23%nat)
  /\ NDL.NDLNode.m_type <$> NDL.nodes NDLExample.example_store !! 23%nat
     = Some ndlTypeUndetermined
  /\ fst (NDL.AddSymbol NDLExample.body "LATER" (Some 11%nat) NDLExample.example_store) = Ok tt
  /\ NDL.binding
       (snd (NDL.AddSymbol NDLExample.body "LATER" (Some 11%nat) NDLExample.example_store))
       NDLExample.body "later" = Some (Some 11%nat)
  /\ NDL.binding NDLExample.example_store NDLExample.body "fresh" = None
  /\ fst (NDL.AddSymbol NDLExample.body "fresh" (Some 11%nat) NDLExample.example_store) = Ok tt
  /\ NDL.binding
       (snd (NDL.AddSymbol NDLExample.body "fresh" (Some 11%nat) NDLExample.example_store))
       NDLExample.body "fresh" = Some (Some 11%nat).
Proof. repeat split; vm_compute; reflexivity. Qed.

(** ** C9 *)

Section GetScalarFacts.
Import NDL NDLExample.

(** A reference whose name resolves to no node: the loop ends with a null
    node, and the error path reads the name of that node. *)
Lemma GetScalar_unresolved_reference {H : Type} (st : Store H) (this : NodeId)
    (n : NDLNode.t) (fuel : nat) :
  nodes st !! this = Some n ->
  is_reference (NDLNode.m_type n) = true ->
  FindNode this (NDLNode.m_value n) true st = (Ok None, st) ->
  GetScalar (S fuel) this st = (Fault NullDeref, st).
Proof.
  intros Hn Hr Hf. unfold GetScalar. cbn [GetScalar_loop]. unfold_monad.
  rewrite (getNode_Some _ _ _ Hn), Hr, Hf. by destruct fuel.
Qed.

(** A variable that names itself: the loop never leaves it. *)
Lemma GetScalar_cyclic_reference_never_returns (fuel : nat) :
  fst (GetScalar fuel 15%nat example_store) = OutOfFuel.
Proof.
  assert (Hloop : GetScalar_loop fuel (@Some NodeId 15%nat) example_store
                  = (OutOfFuel, example_store)).
  { induction fuel as [|fuel IH]; [by vm_compute|].
    cbn [GetScalar_loop]. unfold_monad.
    replace (getNode 15%nat example_store)
      with (Ok (node "loop" "loop" caller ndlTypeVariable [] [] None), example_store)
      by (by vm_compute).
    cbn [NDLNode.m_type NDLNode.m_value node is_reference bool_decide decide_rel].
    replace (FindNode 15%nat "loop" true example_store) with (Ok (Some 15%nat), example_store)
      by (by vm_compute).
    exact IH. }
  unfold GetScalar. unfold_monad. by rewrite Hloop.
Qed.
End GetScalarFacts.

(** C9 (the code departs from it).  For the variable [x = nothing], whose
    value names no symbol of its script or of the global script, the lookup
    returns null, and [GetScalar], instead of signalling the `Scalar
    expected' error, dereferences the null node to read its name. *)
Theorem C9_GetScalar_null_lookup_is_dereferenced (fuel : nat) :
  NDL.FindNode 14%nat "nothing" true NDLExample.example_store
    = (Ok None, NDLExample.example_store)
  /\ NDL.GetScalar (S fuel) 14%nat NDLExample.example_store
     = (Fault NullDeref, NDLExample.example_store).
Proof.
  assert (Hf : NDL.FindNode 14%nat "nothing" true NDLExample.example_store
               = (Ok None, NDLExample.example_store)) by (by vm_compute).
  split; [exact Hf|].
  by apply (GetScalar_unresolved_reference _ _
              (NDLExample.node "x" "nothing" NDLExample.caller ndlTypeVariable [] [] None)).
Qed.

(** ** The statement loop *)

Section EvaluateFacts.
Import NDL EvaluateSpec.
Context {H : Type}.
Variable nodeEval : NDLNodeEvaluator H.
Variable fuel : nat.
Implicit Types (st : Store H).

(** Out of skip mode the loop evaluates every statement in order and
    remembers the last one. *)
Lemma Evaluate_loop_not_skipping statements baseName pass skipThrough nodeLast st :
  Evaluate_loop nodeEval (EvaluateMacro nodeEval fuel) statements baseName pass
    skipThrough false nodeLast st
  = then_return (for_each statements (evaluate_statement nodeEval fuel baseName pass) st)
      (match last statements with Some node => Some node | None => nodeLast end).
Proof.
  unfold evaluate_statement.
  revert nodeLast st. induction statements as [|node rest IH]; intros nodeLast st; [done|].
  cbn [Evaluate_loop for_each]. rewrite last_cons. unfold_monad.
  destruct (getNode node st) as [[n| | |] st1]; [|done..].
  destruct (decide (NDLNode.m_type n = ndlTypeMacroCall)).
  - destruct (EvaluateMacro nodeEval fuel node baseName pass st1) as [[r| | |] st2]; [|done..].
    destruct (eval_ProcessOptionalParameters nodeEval node st2) as [[[]| | |] st3]; [|done..].
    rewrite IH. by destruct (last rest).
  - destruct (eval_Evaluate nodeEval node baseName pass st1) as [[[]| | |] st2]; [|done..].
    rewrite IH. by destruct (last rest).
Qed.

(** In skip mode the loop passes over everything up to and including the
    first occurrence of [skipThrough]. *)
Lemma Evaluate_loop_skipping statements baseName pass p nodeLast st :
  Evaluate_loop nodeEval (EvaluateMacro nodeEval fuel) statements baseName pass
    (Some p) true nodeLast st
  = then_return (for_each (after_first p statements)
                   (evaluate_statement nodeEval fuel baseName pass) st)
      (match last (after_first p statements) with
       | Some node => Some node
       | None => nodeLast
       end).
Proof.
  induction statements as [|node rest IH]; [done|].
  cbn [Evaluate_loop after_first].
  destruct (decide (node = p)) as [->|Hne].
  - rewrite decide_True by done. apply Evaluate_loop_not_skipping.
  - rewrite decide_False by congruence. exact IH.
Qed.

(** [NDLScript::Evaluate] is the loop the specification describes. *)
Lemma Evaluate_unfold this baseName pass skipThrough st :
  Evaluate nodeEval fuel this baseName pass skipThrough st
  = Evaluate_spec nodeEval fuel this baseName pass skipThrough st.
Proof.
  unfold Evaluate, Evaluate_with, Evaluate_spec. unfold_monad.
  destruct (GetBaseName this st) as [[prev| | |] st1]; [|done..].
  destruct (SetBaseName this baseName st1) as [[[]| | |] st2]; [|done..].
  destruct (getScript this st2) as [[s| | |] st3]; [|done..].
  destruct skipThrough as [p|]; cbn [statements_to_evaluate].
  - rewrite bool_decide_true by done. rewrite Evaluate_loop_skipping.
    unfold then_return, last_evaluated.
    by destruct (for_each _ _ st3) as [[[]| | |] st4].
  - rewrite bool_decide_false by (by intros ?). rewrite Evaluate_loop_not_skipping.
    unfold then_return, last_evaluated.
    by destruct (for_each _ _ st3) as [[[]| | |] st4].
Qed.
End EvaluateFacts.

(** ** C7 *)

(** C7.  [NDLScript::Evaluate] visits the statement list in declaration
    order; a MacroCall statement goes to macro expansion followed by the
    evaluator's optional-parameter processing, any other statement to the
    evaluator's Evaluate; with a non-null skipThrough every statement up to
    and including it is skipped; the result is the last node evaluated, or
    skipThrough itself when nothing was evaluated after it.  The loop of the
    source computes, on every store, what the loop worded after the
    specification ([EvaluateSpec.Evaluate_spec]) computes. *)
Theorem C7_Evaluate_visits_in_order_after_skipThrough
    {H : Type} (nodeEval : NDL.NDLNodeEvaluator H) (fuel : nat)
    (this : NDL.ScriptId) (baseName : string) (pass : NDLPass)
    (skipThrough : option NDL.NodeId) (st : NDL.Store H) :
  NDL.Evaluate nodeEval fuel this baseName pass skipThrough st
  = EvaluateSpec.Evaluate_spec nodeEval fuel this baseName pass skipThrough st.
Proof. apply Evaluate_unfold. Qed.

(** On the example: resuming after the first statement of the body of
    [bar] evaluates the second statement only; resuming after the last one
    evaluates nothing and returns the node resumed from. *)
Lemma Evaluate_skipThrough_example :
  (let r := NDL.Evaluate NDLExample.logging_evaluator 0 NDLExample.bar_body "s"
              ndlPassInitial None NDLExample.example_store in
   fst r = Ok (Some 31%nat) /\ NDL.hostState (snd r) = [31; 30]%nat)
  /\ (let r := NDL.Evaluate NDLExample.logging_evaluator 0 NDLExample.bar_body "s"
                 ndlPassInitial (Some 30%nat) NDLExample.example_store in
      fst r = Ok (Some 31%nat) /\ NDL.hostState (snd r) = [31]%nat)
  /\ (let r := NDL.Evaluate NDLExample.logging_evaluator 0 NDLExample.bar_body "s"
                 ndlPassInitial (Some 31%nat) NDLExample.example_store in
      fst r = Ok (Some 31%nat) /\ NDL.hostState (snd r) = []).
Proof. repeat split; vm_compute; reflexivity. Qed.

(** ** Macro expansion *)

Section MacroFacts.
Import NDL EvaluateSpec NDLExample.
Context {H : Type}.
Variable nodeEval : NDLNodeEvaluator H.
Implicit Types (st : Store H).


(** An optional parameter beyond the formal ones ends up bound under its own
    name, whether the body already holds that symbol or not. *)
Lemma bind_parameter_optional st this script i p me param s :
  nodes st !! this = Some me ->
  nodes st !! p = Some param ->
  NDLNode.m_type param = ndlTypeOptionalParameter ->
  length (NDLNode.m_paramMacro me) <= i ->
  scripts st !! script = Some s ->
  exists st',
    bind_parameter nodeEval this script i p st = (Ok tt, st')
    /\ scripts st'
       = <[script := NDLScript.set_symbols (<[key (NDLNode.m_name param) := Some p]>) s]>
           (scripts st)
    /\ binding st' script (NDLNode.m_name param) = Some (Some p).
Proof.
  intros Hme Hp Hty Hi Hs.
  assert (Hlt : (i <? length (NDLNode.m_paramMacro me))%nat = false) by (apply Nat.ltb_ge; lia).
  set (st1 := mkStore (nodes st)
                (<[script := NDLScript.set_symbols (<[key (NDLNode.m_name param) := Some p]>) s]>
                   (scripts st)) (hostState st)).
  assert (Hb : forall st2, scripts st2 = scripts st1 ->
                 binding st2 script (NDLNode.m_name param) = Some (Some p)).
  { intros st2 Heq. unfold binding. rewrite Heq. subst st1. cbn [scripts].
    rewrite lookup_insert_eq. cbn. by rewrite lookup_insert_eq. }
  unfold bind_parameter, ExistsSymbol, AddSymbol, AssignSymbol. unfold_monad.
  rewrite (getNode_Some _ _ _ Hme), (getNode_Some _ _ _ Hp), Hlt, Hty.
  rewrite decide_False by done. rewrite decide_True by done.
  rewrite (getScript_Some _ _ _ Hs).
  destruct (NDLScript.m_symbols s !! key (NDLNode.m_name param)) as [old|] eqn:Hold.
  - rewrite bool_decide_true by (by eexists). cbn [negb].
    rewrite (getScript_Some _ _ _ Hs), Hold, (updScript_Some _ _ _ _ Hs). fold st1.
    destruct (eval_FindSymbol nodeEval (utf16 (NDLNode.m_name param)) st1) as [v|].
    + rewrite (updNode_Some st1 p param) by done.
      eexists. split; [done|]. split; [done | by apply Hb].
    + exists st1. split; [done|]. split; [done | by apply Hb].
  - rewrite bool_decide_false by (by intros [? ?]). cbn [negb].
    rewrite (getScript_Some _ _ _ Hs), Hold, (updScript_Some _ _ _ _ Hs). fold st1.
    exists st1. split; [done|]. split; [done | by apply Hb].
Qed.

End MacroFacts.

(** ** What binding the parameters leaves alone *)

Section BindingFrame.
Import NDL NDLCall.
Context {H : Type}.
Implicit Types (st : Store H).

Lemma same_members_refl n : same_members n n.
Proof. by repeat split. Qed.

Lemma same_members_trans n1 n2 n3 :
  same_members n1 n2 -> same_members n2 n3 -> same_members n1 n3.
Proof. unfold same_members. intuition congruence. Qed.

Lemma same_shape_refl st : same_shape st st.
Proof.
  split; [|split; [done | done]]. intros p n Hn. exists n. split; [done | apply same_members_refl].
Qed.

Lemma same_shape_trans st1 st2 st3 :
  same_shape st1 st2 -> same_shape st2 st3 -> same_shape st1 st3.
Proof.
  intros (Hn12 & Hs12 & Hh12) (Hn23 & Hs23 & Hh23). split; [|split].
  - intros p n1 H1. destruct (Hn12 p n1 H1) as (n2 & H2 & Hm12).
    destruct (Hn23 p n2 H2) as (n3 & H3 & Hm23).
    exists n3. split; [done | by eapply same_members_trans].
  - auto.
  - congruence.
Qed.

Lemma keeps_bind {A B : Type} (m : M (Store H) A) (k : A -> M (Store H) B) :
  keeps_shape m -> (forall a, keeps_shape (k a)) -> keeps_shape (m ≫= k).
Proof.
  intros Hm Hk st. unfold mbind, M_bind, bind. specialize (Hm st).
  destruct (m st) as [[a| | |] st1]; cbn [snd] in *; [|done..].
  eapply same_shape_trans; [exact Hm | apply Hk].
Qed.

Lemma keeps_read_only {A : Type} (m : M (Store H) A) :
  (forall st, snd (m st) = st) -> keeps_shape m.
Proof. intros Hro st. rewrite Hro. apply same_shape_refl. Qed.

Lemma keeps_ret {A : Type} (a : A) : keeps_shape (ret a : M (Store H) A).
Proof. by apply keeps_read_only. Qed.

Lemma keeps_raise {A : Type} fmt args : keeps_shape (raise fmt args : M (Store H) A).
Proof. by apply keeps_read_only. Qed.

Lemma keeps_crash {A : Type} f : keeps_shape (crash f : M (Store H) A).
Proof. by apply keeps_read_only. Qed.

Lemma keeps_get : keeps_shape (get : M (Store H) (Store H)).
Proof. by apply keeps_read_only. Qed.

Lemma keeps_getNode p : keeps_shape (getNode p : M (Store H) NDLNode.t).
Proof. apply keeps_read_only. intros st. unfold getNode. by destruct (nodes st !! p). Qed.

Lemma keeps_deref p : keeps_shape (deref p : M (Store H) NDLNode.t).
Proof. destruct p; [apply keeps_getNode | apply keeps_crash]. Qed.

Lemma keeps_getScript sc : keeps_shape (getScript sc : M (Store H) NDLScript.t).
Proof. apply keeps_read_only. intros st. unfold getScript. by destruct (scripts st !! sc). Qed.

Lemma keeps_updNode p v : keeps_shape (updNode (H := H) p (NDLNode.SetEvalValue v)).
Proof.
  intros st. unfold updNode, getNode. unfold_monad.
  destruct (nodes st !! p) as [n|] eqn:Hn; cbn [snd]; [|apply same_shape_refl].
  split; [|split; [done | done]]. intros q m Hm. cbn [nodes].
  destruct (decide (p = q)) as [->|Hne].
  - rewrite lookup_insert_eq. eexists. split; [done|].
    assert (m = n) as -> by congruence. by repeat split.
  - rewrite lookup_insert_ne by done. exists m. split; [done | apply same_members_refl].
Qed.

Lemma keeps_updScript sc f : keeps_shape (updScript (H := H) sc f).
Proof.
  intros st. unfold updScript, getScript. unfold_monad.
  destruct (scripts st !! sc) as [s|] eqn:Hs; cbn [snd]; [|apply same_shape_refl].
  split; [|split; [|done]].
  - intros q m Hm. exists m. split; [done | apply same_members_refl].
  - intros sc' Hsc'. cbn [scripts]. destruct (decide (sc = sc')) as [->|Hne].
    + rewrite lookup_insert_eq. by eexists.
    + by rewrite lookup_insert_ne.
Qed.

Lemma keeps_for_each {A : Type} (l : list A) (body : A -> M (Store H) unit) :
  (forall x, keeps_shape (body x)) -> keeps_shape (for_each l body).
Proof.
  intros Hbody. induction l as [|x l IH]; [apply keeps_ret|].
  cbn [for_each]. apply keeps_bind; [apply Hbody | intros _; exact IH].
Qed.
End BindingFrame.

#[local] Hint Resolve keeps_ret keeps_raise keeps_crash keeps_get keeps_getNode keeps_deref
  keeps_getScript keeps_updNode keeps_updScript : keeps.

Section BindingFrameOperations.
Import NDL NDLCall.
Context {H : Type}.
Variable nodeEval : NDLNodeEvaluator H.
Implicit Types (st : Store H).

Lemma keeps_FindSymbol this symbol dots :
  keeps_shape (FindSymbol (H := H) this symbol dots).
Proof. unfold FindSymbol, FindSymbol_plain. keeps_shape_tac @keeps_bind. Qed.

Lemma keeps_ExistsSymbol this symbol : keeps_shape (ExistsSymbol (H := H) this symbol).
Proof. unfold ExistsSymbol. keeps_shape_tac @keeps_bind. Qed.

Lemma keeps_AddSymbol this symbol node : keeps_shape (AddSymbol (H := H) this symbol node).
Proof. unfold AddSymbol. keeps_shape_tac @keeps_bind. Qed.

Lemma keeps_AssignSymbol this symbol node :
  keeps_shape (AssignSymbol (H := H) this symbol node).
Proof. unfold AssignSymbol. keeps_shape_tac @keeps_bind. Qed.

Lemma keeps_ClearEvalValues this : keeps_shape (ClearEvalValues (H := H) this).
Proof.
  unfold ClearEvalValues. apply keeps_bind; [apply keeps_getScript|].
  intros s. apply keeps_for_each. intros p. apply keeps_updNode.
Qed.

Lemma keeps_bind_parameter this script i p :
  keeps_shape (bind_parameter nodeEval this script i p).
Proof.
  pose proof keeps_FindSymbol. pose proof keeps_ExistsSymbol.
  pose proof keeps_AddSymbol. pose proof keeps_AssignSymbol.
  unfold bind_parameter. keeps_shape_tac @keeps_bind.
Qed.

Lemma keeps_bind_parameters this script params :
  forall i, keeps_shape (bind_parameters nodeEval this script i params).
Proof.
  induction params as [|p params IH]; intros i; [apply keeps_ret|].
  cbn [bind_parameters]. apply keeps_bind; [apply keeps_bind_parameter | intros _; apply IH].
Qed.
End BindingFrameOperations.

(** ** Binding the parameters beyond the formal ones *)

Section SurplusBinding.
Import NDL NDLCall.
Context {H : Type}.
Variable nodeEval : NDLNodeEvaluator H.
Implicit Types (st : Store H).

(** The loop over the actual parameters goes through a list part by part. *)
Lemma bind_parameters_app this script (l1 l2 : list NodeId) :
  forall i st,
    bind_parameters nodeEval this script i (l1 ++ l2)%list st
    = (bind_parameters nodeEval this script i l1;;
       bind_parameters nodeEval this script (i + length l1) l2) st.
Proof.
  induction l1 as [|p l1 IH]; intros i st.
  - cbn [app bind_parameters length]. rewrite Nat.add_0_r. reflexivity.
  - cbn [app bind_parameters length]. unfold mbind, M_bind, bind.
    destruct (bind_parameter nodeEval this script i p st) as [[[]| | |] st1]; [|done..].
    rewrite IH. unfold mbind, M_bind, bind.
    by replace (i + S (length l1)) with (S i + length l1) by lia.
Qed.

(** Symbols filed one after the other: a key none of them has is left
    alone, and a key holds the last value filed under it. *)
Lemma filed_other (name : NodeId -> string) (l : list NodeId)
    (m : gmap string (option NodeId)) (k : string) :
  (forall q, q ∈ l -> key (name q) <> k) ->
  foldl (fun m p => <[key (name p) := Some p]> m) m l !! k = m !! k.
Proof.
  revert m. induction l as [|p l IH]; intros m Hne; [done|].
  cbn [foldl]. rewrite IH by (intros q Hq; apply Hne; by apply list_elem_of_further).
  apply lookup_insert_ne, Hne, list_elem_of_here.
Qed.

Lemma filed_last (name : NodeId -> string) (before after : list NodeId) (p : NodeId)
    (m : gmap string (option NodeId)) :
  (forall q, q ∈ after -> key (name q) <> key (name p)) ->
  foldl (fun m p => <[key (name p) := Some p]> m) m (before ++ p :: after)%list
    !! key (name p) = Some (Some p).
Proof.
  intros Hne. rewrite foldl_app. cbn [foldl].
  rewrite filed_other by exact Hne. apply lookup_insert_eq.
Qed.

(** Name=value parameters at positions beyond the formal ones are bound
    one after the other, each under its own name. *)
Lemma bind_parameters_optional (name : NodeId -> string) this script (surplus : list NodeId) :
  forall i st1 me1 s1,
    nodes st1 !! this = Some me1 ->
    length (NDLNode.m_paramMacro me1) <= i ->
    scripts st1 !! script = Some s1 ->
    (forall p, p ∈ surplus ->
       exists param, nodes st1 !! p = Some param
                     /\ NDLNode.m_type param = ndlTypeOptionalParameter
                     /\ NDLNode.m_name param = name p) ->
    exists st2,
      bind_parameters nodeEval this script i surplus st1 = (Ok tt, st2)
      /\ scripts st2
         = <[script := NDLScript.set_symbols
                         (fun m => foldl (fun m p => <[key (name p) := Some p]> m) m surplus)
                         s1]> (scripts st1).
Proof.
  induction surplus as [|p surplus IH]; intros i st1 me1 s1 Hme Hi Hs Hopt.
  - exists st1. split; [reflexivity|]. cbn [foldl].
    symmetry. apply insert_id. rewrite Hs. by destruct s1.
  - destruct (Hopt p) as (param & Hp & Hty & Hname); [apply list_elem_of_here|].
    destruct (bind_parameter_optional nodeEval st1 this script i p me1 param s1)
      as (st' & Hrun & Hsc & _); [done..|].
    pose proof (keeps_bind_parameter nodeEval this script i p st1) as Hshape.
    rewrite Hrun in Hshape. cbn [snd] in Hshape. destruct Hshape as (Hnodes & _ & _).
    destruct (Hnodes this me1 Hme) as (me1' & Hme' & Hsame).
    destruct (IH (S i) st' me1'
                (NDLScript.set_symbols (<[key (NDLNode.m_name param) := Some p]>) s1))
      as (st2 & Hrest & Hsc2).
    + exact Hme'.
    + destruct Hsame as (_ & _ & _ & _ & _ & -> & _). lia.
    + rewrite Hsc. apply lookup_insert_eq.
    + intros q Hq. destruct (Hopt q) as (paramq & Hpq & Htq & Hnq);
        [by apply list_elem_of_further|].
      destruct (Hnodes q paramq Hpq) as (paramq' & Hpq' & Hsq).
      exists paramq'. split; [exact Hpq'|].
      destruct Hsq as (-> & _ & _ & -> & _). by split.
    + exists st2. split.
      * cbn [bind_parameters]. unfold mbind, M_bind, bind. by rewrite Hrun.
      * rewrite Hsc2, Hsc, insert_insert_eq. cbn [foldl]. by rewrite Hname.
Qed.
End SurplusBinding.

(** ** C2 *)

Section MacroCallArity.
Import NDL NDLCall.

(** C2 (amended).  A macro call that supplies fewer actual parameters
    (positional and name=value together) than the macro has formal
    parameters raises the error that reports the number provided and the
    number expected, and nothing of the macro body is evaluated: the store,
    the engine's state included, is left as it was.  More actual than formal
    parameters is not an error when the surplus ones are name=value
    parameters: once the parameters at the formal positions are bound, the
    loop binds every surplus parameter under its own name in the scope of
    the macro body (the last one of a name wins, the other symbols stay as
    they were), nothing is raised, and [EvaluateMacro] goes on to evaluate
    the body in that store. *)
Theorem C2_too_few_parameters_raise_before_evaluation
    {H : Type} (nodeEval : NDL.NDLNodeEvaluator H) (fuel : nat) (st : NDL.Store H)
    (this : NDL.NodeId) (me : NDL.NDLNode.t) (baseName : string) (pass : NDLPass) :
  NDL.nodes st !! this = Some me ->
  NDL.NDLNode.m_type me = ndlTypeMacroCall ->
  (length (NDL.NDLNode.m_parameters me) < length (NDL.NDLNode.m_paramMacro me) ->
   NDL.EvaluateMacro nodeEval (S fuel) this baseName pass st
   = (Raise (mkError "Parameter mismatch, %d parameters provided, %d expected in call to %s
"
                     [ArgNum (length (NDL.NDLNode.m_parameters me));
                      ArgNum (length (NDL.NDLNode.m_paramMacro me));
                      ArgStr (NDL.NDLNode.m_value me)]), st))
  /\ (forall (script : NDL.ScriptId) (regular surplus : list NDL.NodeId)
             (st1 : NDL.Store H),
        NDL.NDLNode.m_script me = Some script ->
        NDL.NDLNode.m_parameters me = (regular ++ surplus)%list ->
        length regular = length (NDL.NDLNode.m_paramMacro me) ->
        (forall p, p ∈ surplus ->
           exists param, NDL.nodes st !! p = Some param
                         /\ NDL.NDLNode.m_type param = ndlTypeOptionalParameter) ->
        (NDL.ClearEvalValues script;;
         NDL.bind_parameters nodeEval this script 0 regular) st = (Ok tt, st1) ->
        exists st2,
          (NDL.ClearEvalValues script;;
           NDL.bind_parameters nodeEval this script 0 (NDL.NDLNode.m_parameters me)) st
          = (Ok tt, st2)
          /\ NDL.EvaluateMacro nodeEval (S fuel) this baseName pass st
             = NDLCall.EvaluateMacro_body nodeEval fuel this script baseName pass st2
          /\ NDL.hostState st2 = NDL.hostState st
          /\ (forall (before after : list NDL.NodeId) (p : NDL.NodeId)
                     (param : NDL.NDLNode.t),
                surplus = (before ++ p :: after)%list ->
                NDL.nodes st !! p = Some param ->
                (forall q paramq, q ∈ after -> NDL.nodes st !! q = Some paramq ->
                   NDL.key (NDL.NDLNode.m_name paramq) <> NDL.key (NDL.NDLNode.m_name param)) ->
                NDL.binding st2 script (NDL.NDLNode.m_name param) = Some (Some p))
          /\ (forall symbol : string,
                (forall q paramq, q ∈ surplus -> NDL.nodes st !! q = Some paramq ->
                   NDL.key (NDL.NDLNode.m_name paramq) <> NDL.key symbol) ->
                NDL.binding st2 script symbol = NDL.binding st1 script symbol)).
Proof.
  intros Hme Hty. split.
  - intros Hlt. cbn [EvaluateMacro]. unfold EvaluateMacro_with. unfold_monad.
    rewrite (getNode_Some _ _ _ Hme), decide_True by done.
    by rewrite (proj2 (Nat.ltb_lt _ _) Hlt).
  - intros script regular surplus st1 Hsc Hparams Hlen Hopt Hreg.
    set (name := fun p => default EmptyString (NDLNode.m_name <$> nodes st !! p)).
    (* the store the formal positions leave has the shape of the first one *)
    assert (Hshape : same_shape st st1).
    { pose proof (keeps_bind (ClearEvalValues script)
                    (fun _ => bind_parameters nodeEval this script 0 regular)
                    (keeps_ClearEvalValues script)
                    (fun _ => keeps_bind_parameters nodeEval this script regular 0) st) as Hk.
      rewrite Hreg in Hk. exact Hk. }
    destruct Hshape as (Hnodes & Hscripts & Hhost).
    destruct (Hnodes this me Hme) as (me1 & Hme1 & Hsame).
    assert (Hs : is_Some (scripts st !! script)).
    { revert Hreg. unfold ClearEvalValues, getScript. unfold_monad.
      destruct (scripts st !! script); [by eexists | done]. }
    destruct (Hscripts script Hs) as [s1 Hs1].
    destruct (bind_parameters_optional nodeEval name this script surplus
                (length regular) st1 me1 s1) as (st2 & Hrun & Hsc2).
    { exact Hme1. }
    { destruct Hsame as (_ & _ & _ & _ & _ & -> & _). lia. }
    { exact Hs1. }
    { intros p Hp. destruct (Hopt p Hp) as (param & Hparam & Hpty).
      destruct (Hnodes p param Hparam) as (param' & Hparam' & Hsp).
      exists param'. split; [exact Hparam'|].
      destruct Hsp as (-> & _ & _ & -> & _). split; [exact Hpty|].
      unfold name. by rewrite Hparam. }
    pose proof (keeps_bind_parameters nodeEval this script surplus (length regular) st1)
      as Hshape2.
    rewrite Hrun in Hshape2. destruct Hshape2 as (_ & _ & Hhost2). cbn [snd] in Hhost2.
    assert (Hall : (ClearEvalValues script;;
                    bind_parameters nodeEval this script 0 (NDLNode.m_parameters me)) st
                   = (Ok tt, st2)).
    { revert Hreg. rewrite Hparams. unfold mbind, M_bind, bind.
      destruct (ClearEvalValues script st) as [[[]| | |] st0]; [|done..].
      intros Hreg. rewrite bind_parameters_app. unfold mbind, M_bind, bind.
      by rewrite Hreg. }
    assert (Hname : forall p param, nodes st !! p = Some param -> name p = NDLNode.m_name param).
    { intros p param Hp. unfold name. by rewrite Hp. }
    assert (Hbind : forall symbol,
              binding st2 script symbol
              = foldl (fun m p => <[key (name p) := Some p]> m) (NDLScript.m_symbols s1) surplus
                  !! key symbol).
    { intros symbol. unfold binding. rewrite Hsc2, lookup_insert_eq. reflexivity. }
    exists st2. split; [exact Hall|]. split; [|split; [congruence|split]].
    + cbn [EvaluateMacro]. unfold EvaluateMacro_with, EvaluateMacro_body, Evaluate.
      revert Hall. unfold_monad.
      rewrite (getNode_Some _ _ _ Hme), decide_True by done.
      rewrite (proj2 (Nat.ltb_ge (length (NDLNode.m_parameters me))
                        (length (NDLNode.m_paramMacro me)))), Hsc
        by (rewrite Hparams, length_app; lia).
      destruct (ClearEvalValues script st) as [[[]| | |] st0]; [|done..].
      intros ->. reflexivity.
    + intros before after p param -> Hp Hafter. rewrite Hbind, <- (Hname p param Hp).
      apply filed_last. intros q Hq.
      destruct (Hopt q) as (paramq & Hpq & _).
      { apply elem_of_app. right. by apply list_elem_of_further. }
      rewrite (Hname q paramq Hpq), (Hname p param Hp). by eapply Hafter.
    + intros symbol Hother. rewrite Hbind. unfold binding. rewrite Hs1. cbn.
      apply filed_other. intros q Hq.
      destruct (Hopt q Hq) as (paramq & Hpq & _).
      rewrite (Hname q paramq Hpq). by eapply Hother.
Qed.

End MacroCallArity.

Lemma C2_too_few_parameters_witness :
  NDL.EvaluateMacro NDLExample.logging_evaluator 1 13%nat EmptyString ndlPassInitial
    NDLExample.example_store
  = (Raise (mkError "Parameter mismatch, %d parameters provided, %d expected in call to %s
"
                    [ArgNum 0; ArgNum 1; ArgStr "foo"]), NDLExample.example_store)
  /\ exists st2,
       (NDL.ClearEvalValues NDLExample.body;;
        NDL.bind_parameters NDLExample.logging_evaluator 10%nat NDLExample.body 0
          [11; 12]%nat) NDLExample.example_store = (Ok tt, st2)
       /\ NDL.EvaluateMacro NDLExample.logging_evaluator 1 10%nat EmptyString ndlPassInitial
            NDLExample.example_store
          = NDLCall.EvaluateMacro_body NDLExample.logging_evaluator 0 10%nat NDLExample.body
              EmptyString ndlPassInitial st2
       /\ NDL.binding st2 NDLExample.body "p" = Some (Some 12%nat)
       /\ NDL.binding st2 NDLExample.body "a" = Some (Some 11%nat).
Proof.
  destruct (C2_too_few_parameters_raise_before_evaluation NDLExample.logging_evaluator 0
              NDLExample.example_store 13%nat NDLExample.call_q EmptyString ndlPassInitial
              eq_refl eq_refl) as [Hfew _].
  destruct (C2_too_few_parameters_raise_before_evaluation NDLExample.logging_evaluator 0
              NDLExample.example_store 10%nat NDLExample.call_r EmptyString ndlPassInitial
              eq_refl eq_refl) as [_ Hsurplus].
  split; [apply Hfew; simpl; lia|].
  destruct (Hsurplus NDLExample.body [11]%nat [12]%nat NDLSurplus.formals_bound)
    as (st2 & Hloop & Hrun & _ & Hlast & Hother).
  - reflexivity.
  - reflexivity.
  - reflexivity.
  - intros p Hp. apply list_elem_of_singleton in Hp as ->.
    exists NDLExample.param_p. split; reflexivity.
  - vm_compute. reflexivity.
  - exists st2. split; [exact Hloop|]. split; [exact Hrun|]. split.
    + apply (Hlast [] [] 12%nat NDLExample.param_p); [reflexivity | reflexivity |].
      intros q paramq Hq. by apply elem_of_nil in Hq.
    + rewrite (Hother "a"); [vm_compute; reflexivity|].
      intros q paramq Hq Hpq. apply list_elem_of_singleton in Hq as ->.
      vm_compute in Hpq. injection Hpq as <-. vm_compute. discriminate.
Defined.

(** C2 as stated fails for a surplus: the call [r = foo(3, p=5)] supplies
    two actual parameters to a macro with one formal parameter; no error is
    raised, and the two statements of the body are evaluated. *)
Lemma C2_surplus_parameters_are_accepted :
  NDL.nodes NDLExample.example_store !! 10%nat = Some NDLExample.call_r
  /\ length (NDL.NDLNode.m_parameters NDLExample.call_r)
     <> length (NDL.NDLNode.m_paramMacro NDLExample.call_r)
  /\ fst (NDL.EvaluateMacro NDLExample.logging_evaluator 1 10%nat EmptyString ndlPassInitial
            NDLExample.example_store) = Ok (Some 20%nat)
  /\ NDL.hostState (snd (NDL.EvaluateMacro NDLExample.logging_evaluator 1 10%nat EmptyString
                           ndlPassInitial NDLExample.example_store)) = [20; 21]%nat.
Proof.
  split; [reflexivity|]. split; [simpl; lia|]. split; vm_compute; reflexivity.
Qed.

(** A surplus positional parameter is not an optional one: the loop hands
    it to [AssignSymbol] under its own name.  In the call [t = foo(3, 4)]
    the body of [foo] holds no symbol of that name, [AssignSymbol] raises
    its error, and nothing of the body is evaluated. *)
Lemma surplus_positional_parameter_needs_a_symbol :
  NDL.nodes NDLSurplus.surplus_store !! 17%nat = Some NDLSurplus.call_t
  /\ fst (NDL.EvaluateMacro NDLExample.logging_evaluator 1 17%nat EmptyString ndlPassInitial
            NDLSurplus.surplus_store)
     = Raise (mkError "Symbol '%s' currently does not exist, attempting to assigned value '%s' AssignSymbol() requires existing symbol
"
                      [ArgStr "unnamed2"; ArgStr "4"])
  /\ NDL.hostState (snd (NDL.EvaluateMacro NDLExample.logging_evaluator 1 17%nat EmptyString
                           ndlPassInitial NDLSurplus.surplus_store)) = [].
Proof. split; [reflexivity|]. split; vm_compute; reflexivity. Qed.

(** ** C3 *)

(** C3 (amended).  An optional (name=value) actual parameter beyond the
    formal ones is bound under its own name in the scope of the macro body
    whether or not that scope already holds the symbol: an absent symbol is
    added, and an existing binding is replaced by the actual parameter, so
    the value of the call overrides the default of the body. *)
Theorem C3_optional_parameter_is_bound_in_either_case
    {H : Type} (nodeEval : NDL.NDLNodeEvaluator H) (st : NDL.Store H)
    (this : NDL.NodeId) (script : NDL.ScriptId) (i : nat) (p : NDL.NodeId)
    (me param : NDL.NDLNode.t) (s : NDL.NDLScript.t) :
  NDL.nodes st !! this = Some me ->
  NDL.nodes st !! p = Some param ->
  NDL.NDLNode.m_type param = ndlTypeOptionalParameter ->
  length (NDL.NDLNode.m_paramMacro me) <= i ->
  NDL.scripts st !! script = Some s ->
  exists st',
    NDL.bind_parameter nodeEval this script i p st = (Ok tt, st')
    /\ NDL.scripts st'
       = <[script := NDL.NDLScript.set_symbols
                       (<[NDL.key (NDL.NDLNode.m_name param) := Some p]>) s]>
           (NDL.scripts st)
    /\ NDL.binding st' script (NDL.NDLNode.m_name param) = Some (Some p).
Proof. apply bind_parameter_optional. Qed.

Lemma C3_optional_parameter_witness :
  exists st',
    NDL.bind_parameter NDLExample.logging_evaluator 10%nat NDLExample.body 1 12%nat
      NDLExample.example_store = (Ok tt, st')
    /\ NDL.binding st' NDLExample.body "p" = Some (Some 12%nat).
Proof.
  destruct (C3_optional_parameter_is_bound_in_either_case NDLExample.logging_evaluator
              NDLExample.example_store 10%nat NDLExample.body 1 12%nat
              NDLExample.call_r NDLExample.param_p NDLExample.body_script
              eq_refl eq_refl eq_refl (le_n 1) eq_refl) as (st' & Hrun & _ & Hb).
  exists st'. split; [exact Hrun | exact Hb].
Defined.

(** C3 as stated fails: the body of [foo] holds the symbol p, bound to its
    default [p = 1] (node 21); after the call [foo(3, p=5)] the symbol is
    bound to the optional parameter of the call (node 12). *)
Lemma C3_existing_binding_is_replaced :
  NDL.nodes NDLExample.example_store !! 12%nat = Some NDLExample.param_p
  /\ NDL.binding NDLExample.example_store NDLExample.body "p" = Some (Some 21%nat)
  /\ NDL.binding
       (snd (NDL.EvaluateMacro NDLExample.logging_evaluator 1 10%nat EmptyString ndlPassInitial
               NDLExample.example_store))
       NDLExample.body "p" = Some (Some 12%nat).
Proof. split; [reflexivity|]. split; vm_compute; reflexivity. Qed.

(** ** C6 *)

Section MacroCallResult.
Import NDL.


End MacroCallResult.


(** The other branch on the example: the body of [bar] binds the symbol
    bar to its first statement (node 30), and the call returns that node,
    not the last statement (node 31). *)
Lemma EvaluateMacro_returns_symbol_of_macro_name :
  last (NDL.NDLScript.m_script NDLExample.bar_script) = Some 31%nat
  /\ fst (NDL.EvaluateMacro NDLExample.logging_evaluator 1 16%nat EmptyString ndlPassInitial
            NDLExample.example_store) = Ok (Some 30%nat).
Proof. split; vm_compute; reflexivity. Qed.

(** * Further properties *)

(** ** The matcher and the dispatcher *)

Section MatcherFacts.
Import CStr.

Lemma c_str_idemp (s : string) : c_str (c_str s) = c_str s.
Proof.
  induction s as [|c s IH]; [done|]. simpl.
  destruct (Ascii.eqb c NUL) eqn:E; [done|]. simpl. by rewrite E, IH.
Qed.
End MatcherFacts.

(** X1.  What [EqualInsensitive] leaves in its in/out argument: after a
    successful match the argument reads, as a C string, as the full name
    (also when the match went through the alternate name); after a failed
    match it is untouched. *)
Theorem X1_EqualInsensitive_leaves_full_name
    (token name : string) (alternate : option string) :
  if fst (EqualInsensitive token name alternate)
  then c_str (snd (EqualInsensitive token name alternate)) = c_str name
  else snd (EqualInsensitive token name alternate) = token.
Proof.
  unfold EqualInsensitive, strcmp_ne.
  destruct (strnicmp_eq (c_str token) (c_str name) (String.length token));
    destruct (String.length token <? strlen name / 2)%nat;
    cbn [andb negb fst snd].
  2: { destruct (String.eqb (c_str token) (c_str name)) eqn:E; cbn [negb].
       - apply String.eqb_eq in E.
         destruct alternate; cbn [negb fst snd]; exact E.
       - destruct alternate; cbn [negb fst snd]; apply c_str_idemp. }
  all: destruct alternate as [alt|]; cbn [negb fst snd]; [|reflexivity];
    destruct (strnicmp_eq (c_str token) (c_str alt) (String.length token));
    destruct (String.length token <? strlen alt / 2)%nat;
    cbn [andb fst snd]; first [reflexivity | apply c_str_idemp].
Qed.

Section DispatcherMore.
Import CStr MEL MELSpec MELCommands.

Lemma CallFunction_UnloadModel (host : Host) (params : list string) (mel : MELScript) :
  CallFunction host "UnloadModel" params mel = for_each params unload_one mel.
Proof. unfold CallFunction. eval_matcher. reflexivity. Qed.

Lemma unload_one_run (modelName : string) (mel : MELScript) :
  unload_one modelName mel
  = (Ok tt,
     match m_mapNameToNetNdl mel !! modelName with
     | Some _ =>
         mkMEL (delete modelName (m_mapNameToNetNdl mel))
               (if decide (m_netNdlDefault mel = Some modelName) then None
                else m_netNdlDefault mel)
     | None => mel
     end).
Proof. reflexivity. Qed.

Lemma unload_all (params : list string) (mel : MELScript) :
  exists mel',
    for_each params unload_one mel = (Ok tt, mel')
    /\ (forall k, m_mapNameToNetNdl mel' !! k
                  = if bool_decide (k ∈ params) then None else m_mapNameToNetNdl mel !! k)
    /\ (default_registered mel ->
        default_registered mel'
        /\ m_netNdlDefault mel'
           = match m_netNdlDefault mel with
             | Some d => if bool_decide (d ∈ params) then None else Some d
             | None => None
             end).
Proof.
  revert mel. induction params as [|name rest IH]; intros mel.
  - exists mel. split; [reflexivity|]. split; [done|].
    intros Hreg. split; [done|]. by destruct (m_netNdlDefault mel).
  - cbn [for_each]. unfold mbind, M_bind, bind. rewrite unload_one_run.
    set (mel1 := match m_mapNameToNetNdl mel !! name with Some _ => _ | None => mel end).
    destruct (IH mel1) as (mel' & Hrun & Hmap & Hdef).
    exists mel'. split; [exact Hrun|].
    assert (Hmap1 : forall k, m_mapNameToNetNdl mel1 !! k
                              = if decide (k = name) then None else m_mapNameToNetNdl mel !! k).
    { intros k. subst mel1.
      destruct (m_mapNameToNetNdl mel !! name) eqn:En; cbn [m_mapNameToNetNdl].
      - destruct (decide (k = name)) as [->|Hne];
          [apply lookup_delete_eq | by apply lookup_delete_ne].
      - destruct (decide (k = name)) as [->|Hne]; done. }
    split.
    + intros k. rewrite Hmap, Hmap1.
      destruct (decide (k = name)) as [->|Hne].
      * rewrite (bool_decide_true (name ∈ name :: rest)) by apply list_elem_of_here.
        by destruct (bool_decide (name ∈ rest)).
      * destruct (bool_decide (k ∈ rest)) eqn:Er.
        -- apply bool_decide_eq_true in Er.
           by rewrite bool_decide_true by (by apply list_elem_of_further).
        -- apply bool_decide_eq_false in Er.
           rewrite bool_decide_false; [done|].
           intros [?|?]%elem_of_cons; done.
    + intros Hreg.
      assert (Hreg1 : default_registered mel1
                      /\ m_netNdlDefault mel1
                         = match m_netNdlDefault mel with
                           | Some d => if decide (d = name) then None else Some d
                           | None => None
                           end).
      { subst mel1. destruct (m_mapNameToNetNdl mel !! name) as [entry|] eqn:En.
        - cbn. destruct (m_netNdlDefault mel) as [d|] eqn:Ed.
          + destruct (decide (Some d = Some name)) as [[= ->]|Hne].
            * rewrite decide_True by done. split; [by intros ? [=]|done].
            * rewrite decide_False by congruence. split; [|done].
              intros d' [= <-]. cbn. rewrite lookup_delete_ne by congruence.
              by apply Hreg.
          + rewrite decide_False by done. split; [by intros ? [=]|done].
        - split; [exact Hreg|]. destruct (m_netNdlDefault mel) as [d|] eqn:Ed; [|done].
          destruct (decide (d = name)) as [->|Hne]; [|done].
          destruct (Hreg name Ed) as [? Hs]. congruence. }
      destruct Hreg1 as [Hreg1 Hd1]. destruct (Hdef Hreg1) as [Hreg' Hd'].
      split; [exact Hreg'|]. rewrite Hd', Hd1.
      destruct (m_netNdlDefault mel) as [d|]; [|done].
      destruct (decide (d = name)) as [->|Hne].
      * by rewrite (bool_decide_true (name ∈ name :: rest)) by apply list_elem_of_here.
      * destruct (bool_decide (d ∈ rest)) eqn:Er.
        -- apply bool_decide_eq_true in Er.
           by rewrite bool_decide_true by (by apply list_elem_of_further).
        -- apply bool_decide_eq_false in Er.
           rewrite bool_decide_false; [done|].
           intros [?|?]%elem_of_cons; done.
Qed.
End DispatcherMore.

(** X2.  A token that none of the command names (nor their alternates)
    accepts is rejected with the error that carries the token; no host
    member is called and the interpreter state is left as it was. *)
Theorem X2_unknown_command_is_rejected
    (host : MEL.Host) (token : string) (params : list string) (mel : MEL.MELScript) :
  (forall name alt, In (name, alt) MELCommands.command_names ->
     fst (EqualInsensitive token name alt) = false) ->
  MEL.CallFunction host token params mel
  = (Raise (mkError "Unknown Editor function %s" [ArgStr (c_str token)]), mel).
Proof.
  intros Hall. unfold MEL.CallFunction.
  skip_test Hall EqualInsensitive_false_unchanged.
  unfold mbind, M_bind, bind, mret, M_ret, ret.
  do 20 (skip_test Hall EqualInsensitive_false_unchanged).
  reflexivity.
Qed.

Lemma X2_unknown_command_witness :
  MEL.CallFunction MELSpec.spec_host "Frobnicate" ["A"] MELSpec.mel_example
  = (Raise (mkError "Unknown Editor function %s" [ArgStr "Frobnicate"]), MELSpec.mel_example).
Proof.
  apply (X2_unknown_command_is_rejected MELSpec.spec_host "Frobnicate" ["A"] MELSpec.mel_example).
  intros name alt Hin. simpl in Hin.
  repeat (destruct Hin as [[= <- <-]|Hin]; [vm_compute; reflexivity|]).
  destruct Hin.
Defined.

(** X3.  [UnloadModel] never raises, whatever names it is given: the models
    named are removed from the registry (an unknown name only prints a
    warning) and every other entry is left as it was. *)
Theorem X3_UnloadModel_removes_exactly_the_named_models
    (host : MEL.Host) (params : list string) (mel : MEL.MELScript) :
  exists mel',
    MEL.CallFunction host "UnloadModel" params mel = (Ok tt, mel')
    /\ forall k, MEL.m_mapNameToNetNdl mel' !! k
                 = if bool_decide (k ∈ params) then None
                   else MEL.m_mapNameToNetNdl mel !! k.
Proof.
  rewrite CallFunction_UnloadModel.
  destruct (unload_all params mel) as (mel' & Hrun & Hmap & _).
  exists mel'. split; [exact Hrun | exact Hmap].
Qed.

(** X4.  [UnloadModel] keeps the default pointer sound: if the default,
    when set, points to a registered model, it still does afterwards; it is
    cleared exactly when the default model is among the models unloaded. *)
Theorem X4_UnloadModel_clears_an_unloaded_default
    (host : MEL.Host) (params : list string) (mel : MEL.MELScript) :
  MELCommands.default_registered mel ->
  let mel' := snd (MEL.CallFunction host "UnloadModel" params mel) in
  MELCommands.default_registered mel'
  /\ MEL.m_netNdlDefault mel'
     = match MEL.m_netNdlDefault mel with
       | Some d => if bool_decide (d ∈ params) then None else Some d
       | None => None
       end.
Proof.
  intros Hreg mel'. subst mel'. rewrite CallFunction_UnloadModel.
  destruct (unload_all params mel) as (mel' & Hrun & _ & Hdef).
  rewrite Hrun. cbn [snd]. exact (Hdef Hreg).
Qed.

Lemma X4_UnloadModel_witness :
  MELCommands.default_registered MELCommands.two_models
  /\ MEL.m_netNdlDefault
       (snd (MEL.CallFunction MELSpec.spec_host "UnloadModel" ["m2"; "nope"]
               MELCommands.two_models)) = None.
Proof.
  assert (Hreg : MELCommands.default_registered MELCommands.two_models).
  { intros d [= <-]. eexists. reflexivity. }
  split; [exact Hreg|].
  destruct (X4_UnloadModel_clears_an_unloaded_default MELSpec.spec_host ["m2"; "nope"]
              MELCommands.two_models Hreg) as [_ Hd].
  rewrite Hd. reflexivity.
Defined.

(** X5.  [SetNodeInput] rewires nothing unless its operands pass the
    guards: when the two lookups succeed but the operands belong to
    different networks, or the input operand does not stand for exactly one
    node, or the target operand stands for no node, an error is raised
    before [ProcessNDLScript] and [SetInput] are reached, so the state is
    the one the lookups left; for different networks the error carries both
    operands. *)
Theorem X5_SetNodeInput_guards
    (host : MEL.Host) (mel mel1 mel2 : MEL.MELScript) (A n B : string)
    (nodeTo nodeFrom : list string) (netNdlTo netNdlFrom : string) :
  MEL.FindSymbols host A mel = (Ok (nodeTo, netNdlTo), mel1) ->
  MEL.FindSymbols host B mel1 = (Ok (nodeFrom, netNdlFrom), mel2) ->
  netNdlTo <> netNdlFrom \/ length nodeFrom <> 1 \/ nodeTo = [] ->
  exists e,
    MEL.CallFunction host "SetNodeInput" [A; n; B] mel = (Raise e, mel2)
    /\ (netNdlTo <> netNdlFrom ->
        e = mkError "SetNodeInput() requires two symbols from the same network, %s and %s belong to different networks"
                    [ArgStr A; ArgStr B]).
Proof.
  intros HA HB Hguard.
  unfold MEL.CallFunction. eval_matcher.
  unfold MEL.SetNodeInput_body, MEL.check_count, MEL.param.
  cbn [length Nat.ltb Nat.leb orb Nat.add nth].
  unfold mbind, M_bind, bind, mret, M_ret, ret, raise.
  rewrite HA, HB.
  destruct (decide (netNdlTo = netNdlFrom)) as [Heq|Hne].
  - destruct (decide (length nodeFrom = 1)) as [Hone|Hone].
    + destruct (decide (length nodeTo < 1)) as [Hnil|Hnil].
      * eexists. split; [reflexivity|]. intros Hc. by destruct Hc.
      * exfalso. destruct Hguard as [?|[?| ->]]; [done | done | simpl in Hnil; lia].
    + eexists. split; [reflexivity|]. intros Hc. by destruct Hc.
  - eexists. split; [reflexivity|]. reflexivity.
Qed.

Lemma X5_SetNodeInput_guards_witness :
  exists e,
    MEL.CallFunction MELCommands.two_network_host "SetNodeInput" ["A"; "0"; "B"]
      MELCommands.two_models = (Raise e, MELCommands.two_models)
    /\ ("m1" <> "m2" ->
        e = mkError "SetNodeInput() requires two symbols from the same network, %s and %s belong to different networks"
                    [ArgStr "A"; ArgStr "B"]).
Proof.
  apply (X5_SetNodeInput_guards MELCommands.two_network_host MELCommands.two_models
           MELCommands.two_models MELCommands.two_models "A" "0" "B" ["A"] ["B"] "m1" "m2").
  - reflexivity.
  - reflexivity.
  - left. discriminate.
Defined.

(** ** The role arrays *)

Section RoleArrayFacts.
Context {Node : Type} `{EqDecision Node}.

Lemma find_node_delete_others (node : Node) (arr : list Node) (i : nat) :
  find_node node arr = Some i ->
  filter (fun x => x <> node) (delete i arr) = filter (fun x => x <> node) arr.
Proof.
  revert i. induction arr as [|x arr IH]; intros i; simpl; [done|].
  destruct (decide (x = node)) as [->|Hne].
  - intros [= <-]. simpl. by rewrite filter_cons_False by (by intros ?).
  - destruct (find_node node arr) as [j|]; simpl; [|done].
    intros [= <-]. simpl. rewrite !filter_cons_True by done. by rewrite (IH j).
Qed.

(** The search loop passes over what precedes the first occurrence. *)
Lemma find_node_first (node : Node) (before after : list Node) :
  node ∉ before -> find_node node (before ++ node :: after)%list = Some (length before).
Proof.
  induction before as [|x before IH]; intros Hnot; simpl.
  - by rewrite decide_True.
  - apply not_elem_of_cons in Hnot as [Hne Hnot].
    rewrite decide_False by done. by rewrite (IH Hnot).
Qed.

Lemma delete_middle (before after : list Node) (x : Node) :
  delete (length before) (before ++ x :: after)%list = (before ++ after)%list.
Proof. induction before as [|y before IH]; simpl; [done | by rewrite IH]. Qed.
End RoleArrayFacts.

(** X6.  [SetProperty] never disturbs the other nodes of a role array:
    whatever the call, the nodes different from the one named keep their
    order and their multiplicities.  Of the node named, a call with
    [set = false] removes exactly one occurrence, the first one: what comes
    before it and what comes after it stay as they are, and an array that
    does not hold the node is left alone.  A call with [set = true] adds
    one occurrence, at the end, only if there is none. *)
Theorem X6_SetProperty_touches_only_the_node_named
    {Node : Type} `{EqDecision Node} (node : Node) (arr : list Node) (set : bool) :
  filter (fun x => x <> node) (SetProperty node arr set) = filter (fun x => x <> node) arr
  /\ occurrences node (SetProperty node arr false) = pred (occurrences node arr)
  /\ occurrences node (SetProperty node arr true) = Nat.max 1 (occurrences node arr)
  /\ (forall before after : list Node,
        arr = (before ++ node :: after)%list -> node ∉ before ->
        SetProperty node arr false = (before ++ after)%list
        /\ SetProperty node arr true = arr)
  /\ (node ∉ arr ->
      SetProperty node arr false = arr
      /\ SetProperty node arr true = (arr ++ [node])%list).
Proof.
  split; [|split; [|split; [|split]]].
  - unfold SetProperty.
    destruct (find_node node arr) as [i|] eqn:Hf.
    + destruct set; [done | by apply find_node_delete_others].
    + destruct set; [|done]. rewrite filter_app, filter_cons_False by (by intros ?).
      by rewrite filter_nil, app_nil_r.
  - unfold SetProperty.
    destruct (find_node node arr) as [i|] eqn:Hf.
    + by destruct (find_node_Some _ _ _ Hf) as (_ & Ho & _ & _).
    + assert (Hz : occurrences node arr = 0) by by apply occurrences_zero, find_node_None.
      by rewrite Hz.
  - unfold SetProperty.
    destruct (find_node node arr) as [i|] eqn:Hf.
    + destruct (find_node_Some _ _ _ Hf) as (Hl & _ & _ & _).
      assert (Hpos : occurrences node arr <> 0).
      { rewrite occurrences_zero. intros Hn. apply Hn. by apply (list_elem_of_lookup_2 _ i). }
      lia.
    + assert (Hz : occurrences node arr = 0) by by apply occurrences_zero, find_node_None.
      by rewrite occurrences_app, Hz, occurrences_cons, decide_True.
  - intros before after -> Hnot. unfold SetProperty.
    rewrite (find_node_first node before after Hnot). split; [apply delete_middle | done].
  - intros Hnot. unfold SetProperty.
    by rewrite (proj2 (find_node_None node arr) Hnot).
Qed.

Lemma X6_SetProperty_witness :
  SetProperty 7 [7; 3; 7] false = [3; 7]
  /\ SetProperty 7 [7; 3; 7] true = [7; 3; 7]
  /\ SetProperty 5 [7; 3; 7] false = [7; 3; 7]
  /\ SetProperty 5 [7; 3; 7] true = [7; 3; 7; 5].
Proof.
  destruct (X6_SetProperty_touches_only_the_node_named 7 [7; 3; 7] false)
    as (_ & _ & _ & Hfirst & _).
  destruct (X6_SetProperty_touches_only_the_node_named 5 [7; 3; 7] false)
    as (_ & _ & _ & _ & Habsent).
  destruct (Hfirst [] [3; 7] eq_refl) as [Hoff Hon]; [apply not_elem_of_nil|].
  destruct Habsent as [Hoff' Hon'].
  { intros Hin. repeat (apply elem_of_cons in Hin as [Hin|Hin]; [discriminate|]).
    by apply elem_of_nil in Hin. }
  repeat split; assumption.
Defined.

(** ** Lookups *)

Section LookupFacts.
Import CStr NDL NDLMembers.
Context {H : Type}.
Implicit Types (st : Store H).

Lemma FindSymbol_read_only this symbol searchForDotNames st :
  snd (FindSymbol this symbol searchForDotNames st) = st.
Proof.
  unfold FindSymbol, FindSymbol_plain, deref, getNode, getScript. unfold_monad.
  repeat case_match; simplify_eq; reflexivity.
Qed.

Lemma FindNode_read_only this name searchForDotNames st :
  snd (FindNode this name searchForDotNames st) = st.
Proof.
  unfold FindNode. unfold_monad. unfold getNode.
  destruct (nodes st !! this) as [me|]; [|reflexivity].
  pose proof (FindSymbol_read_only (NDLNode.m_parent me) name searchForDotNames st) as Hl.
  destruct (FindSymbol (NDLNode.m_parent me) name searchForDotNames st) as [[[q|]| | |] st1];
    cbn [snd] in Hl; subst st1; try reflexivity.
  apply FindSymbol_read_only.
Qed.

Lemma GetScalar_loop_read_only fuel node st :
  snd (GetScalar_loop fuel node st) = st.
Proof.
  revert node st. induction fuel as [|fuel IH]; intros [p|] st; try reflexivity;
    cbn [GetScalar_loop]; unfold_monad; unfold getNode;
    destruct (nodes st !! p) as [n|]; try reflexivity;
    destruct (is_reference (NDLNode.m_type n)); try reflexivity.
  pose proof (FindNode_read_only p (NDLNode.m_value n) true st) as Hf.
  destruct (FindNode p (NDLNode.m_value n) true st) as [[q| | |] st1];
    cbn [snd] in Hf; subst st1; try reflexivity.
  apply IH.
Qed.

(** A name without a dot: the dotted search is the plain search. *)
Lemma FindSymbol_dot_free this symbol st :
  find_first_of "." symbol = None ->
  FindSymbol this symbol true st = FindSymbol this symbol false st.
Proof.
  intros Hdot. unfold FindSymbol, FindSymbol_plain. cbn [negb]. rewrite Hdot.
  cbn [substr_to]. unfold_monad.
  destruct (getScript this st) as [[s| | |] st1]; reflexivity.
Qed.

Lemma resolves_loop st p k c :
  resolves st p k c ->
  forall fuel, k <= fuel -> GetScalar_loop fuel (Some p) st = (Ok (Some c), st).
Proof.
  induction 1 as [p n Hn Hr | p n q k c Hn Hr Hf _ IH]; intros fuel Hle.
  - destruct fuel; cbn [GetScalar_loop]; unfold_monad;
      by rewrite (getNode_Some _ _ _ Hn), Hr.
  - destruct fuel as [|fuel]; [lia|].
    cbn [GetScalar_loop]. unfold_monad.
    rewrite (getNode_Some _ _ _ Hn), Hr, Hf. apply IH. lia.
Qed.
End LookupFacts.

Section LookupClaims.
Import CStr NDL NDLMembers.

(** X7.  [FindNode] on a name without a dot: with or without the dotted
    search it returns the node the parent script binds to the name, and
    only when the parent script does not hold the name, or binds it to a
    null pointer, the node the global script binds to it; the store is not
    changed. *)
Theorem X7_FindNode_local_scope_before_global
    {H : Type} (st : Store H) (this : NodeId) (me : NDLNode.t)
    (s g : NDLScript.t) (name : string) (searchForDotNames : bool) :
  nodes st !! this = Some me ->
  scripts st !! NDLNode.m_parent me = Some s ->
  scripts st !! s_global = Some g ->
  find_first_of "." name = None ->
  FindNode this name searchForDotNames st
  = (Ok (match NDLScript.m_symbols s !! key name with
         | Some (Some local) => Some local
         | _ => default None (NDLScript.m_symbols g !! key name)
         end), st).
Proof.
  intros Hme Hs Hg Hdot. unfold FindNode. unfold_monad.
  rewrite (getNode_Some _ _ _ Hme).
  assert (Hplain : forall script, FindSymbol script name searchForDotNames st
                                  = FindSymbol_plain script name st).
  { intros script. destruct searchForDotNames; [|reflexivity].
    by rewrite FindSymbol_dot_free. }
  rewrite Hplain, (FindSymbol_plain_Some _ _ _ _ Hs).
  destruct (NDLScript.m_symbols s !! key name) as [[local|]|]; cbn [from_option id];
    [reflexivity | |]; cbv beta iota;
    by rewrite Hplain, (FindSymbol_plain_Some _ _ _ _ Hg).
Qed.

Lemma X7_FindNode_witness :
  FindNode 2%nat "c" true NDLChain.chain_store = (Ok (Some 1%nat), NDLChain.chain_store)
  /\ FindNode 2%nat "g" true NDLChain.chain_store = (Ok (Some 5%nat), NDLChain.chain_store).
Proof.
  split.
  - exact (X7_FindNode_local_scope_before_global NDLChain.chain_store 2%nat
             (NDLExample.node "v" "c" NDLChain.main ndlTypeVariable [] [] None)
             NDLChain.main_script NDLChain.global_script "c" true
             eq_refl eq_refl eq_refl eq_refl).
  - exact (X7_FindNode_local_scope_before_global NDLChain.chain_store 2%nat
             (NDLExample.node "v" "c" NDLChain.main ndlTypeVariable [] [] None)
             NDLChain.main_script NDLChain.global_script "g" true
             eq_refl eq_refl eq_refl eq_refl).
Defined.

(** X8.  A symbol added by [AddSymbol] is found by [FindSymbol] under any
    spelling that differs only in case, and is reported by [ExistsSymbol];
    the lookup of every other symbol answers as before. *)
Theorem X8_AddSymbol_then_FindSymbol
    {H : Type} (st st' : Store H) (this : ScriptId) (symbol : string)
    (node : option NodeId) :
  AddSymbol this symbol node st = (Ok tt, st') ->
  (forall spelling, lower spelling = lower symbol ->
     FindSymbol this spelling false st' = (Ok node, st')
     /\ ExistsSymbol this spelling st' = (Ok true, st'))
  /\ (forall other, lower other <> lower symbol ->
        fst (FindSymbol this other false st') = fst (FindSymbol this other false st)).
Proof.
  intros Hadd.
  destruct (scripts st !! this) as [s|] eqn:Hs.
  2: { unfold AddSymbol, getScript in Hadd. unfold_monad. by rewrite Hs in Hadd. }
  rewrite (AddSymbol_eq _ _ _ symbol node Hs) in Hadd. cbv zeta in Hadd.
  set (st1 := mkStore (nodes st)
                (<[this := NDLScript.set_symbols (<[key symbol := node]>) s]> (scripts st))
                (hostState st)) in *.
  assert (Hst : st' = st1).
  { destruct (NDLScript.m_symbols s !! key symbol) as [[p|]|]; [| |congruence].
    - destruct (nodes st !! p) as [n|]; [|congruence].
      destruct (decide _); congruence.
    - congruence. }
  subst st'.
  assert (Hs1 : scripts st1 !! this
                = Some (NDLScript.set_symbols (<[key symbol := node]>) s))
    by (subst st1; cbn [scripts]; apply lookup_insert_eq).
  split.
  - intros spelling Hsp. unfold FindSymbol, ExistsSymbol. cbn [negb].
    rewrite (FindSymbol_plain_Some _ _ _ _ Hs1). unfold_monad.
    rewrite (getScript_Some _ _ _ Hs1). unfold key. cbn [NDLScript.m_symbols NDLScript.set_symbols].
    rewrite Hsp, lookup_insert_eq. split; [reflexivity|].
    by rewrite bool_decide_true by (by eexists).
  - intros other Hne. unfold FindSymbol. cbn [negb].
    rewrite (FindSymbol_plain_Some _ _ _ _ Hs1), (FindSymbol_plain_Some _ _ _ _ Hs).
    cbn [fst NDLScript.m_symbols NDLScript.set_symbols]. unfold key.
    by rewrite lookup_insert_ne by congruence.
Qed.

Lemma X8_AddSymbol_then_FindSymbol_witness :
  let st' := snd (AddSymbol NDLChain.main "Total" (Some 4%nat) NDLChain.chain_store) in
  FindSymbol NDLChain.main "TOTAL" false st' = (Ok (Some 4%nat), st').
Proof.
  intros st'.
  destruct (X8_AddSymbol_then_FindSymbol NDLChain.chain_store st' NDLChain.main "Total"
              (Some 4%nat)) as [Hfound _].
  - subst st'. vm_compute. reflexivity.
  - destruct (Hfound "TOTAL") as [Hf _]; [reflexivity | exact Hf].
Defined.

(** X9.  [AssignSymbol] never creates and never removes a symbol: after
    it, whatever its outcome, [ExistsSymbol] answers for every symbol as it
    did before.  On a symbol the table holds it succeeds and the symbol is
    then bound to the node given; on a symbol the table does not hold it
    fails and leaves the store as it was. *)
Theorem X9_AssignSymbol_needs_an_existing_symbol
    {H : Type} (st : Store H) (this : ScriptId) (s : NDLScript.t) (symbol : string)
    (node : option NodeId) :
  scripts st !! this = Some s ->
  let st' := snd (AssignSymbol this symbol node st) in
  (forall other, fst (ExistsSymbol this other st') = fst (ExistsSymbol this other st))
  /\ (is_Some (NDLScript.m_symbols s !! key symbol) ->
      fst (AssignSymbol this symbol node st) = Ok tt
      /\ FindSymbol this symbol false st' = (Ok node, st'))
  /\ (NDLScript.m_symbols s !! key symbol = None ->
      fst (AssignSymbol this symbol node st) <> Ok tt /\ st' = st).
Proof.
  intros Hs st'. subst st'.
  destruct (NDLScript.m_symbols s !! key symbol) as [old|] eqn:Hold.
  - rewrite (AssignSymbol_bound _ _ _ _ node old Hs Hold). cbn [fst snd].
    set (st1 := mkStore _ _ _).
    assert (Hs1 : scripts st1 !! this
                  = Some (NDLScript.set_symbols (<[key symbol := node]>) s))
      by (subst st1; cbn [scripts]; apply lookup_insert_eq).
    split; [|split; [|intros [=]]].
    + intros other. unfold ExistsSymbol. unfold_monad.
      rewrite (getScript_Some _ _ _ Hs1), (getScript_Some _ _ _ Hs).
      cbn [fst NDLScript.m_symbols NDLScript.set_symbols]. f_equal.
      destruct (decide (key symbol = key other)) as [Hk|Hk].
      * rewrite <- Hk, lookup_insert_eq, Hold.
        by rewrite !bool_decide_true by (by eexists).
      * by rewrite lookup_insert_ne.
    + intros _. split; [reflexivity|]. unfold FindSymbol. cbn [negb].
      rewrite (FindSymbol_plain_Some _ _ _ _ Hs1).
      cbn [NDLScript.m_symbols NDLScript.set_symbols]. by rewrite lookup_insert_eq.
  - assert (Hfail : fst (AssignSymbol this symbol node st) <> Ok tt
                    /\ snd (AssignSymbol this symbol node st) = st).
    { unfold AssignSymbol. unfold_monad. rewrite (getScript_Some _ _ _ Hs), Hold.
      destruct node as [p|]; cbn [deref]; [|by split].
      unfold getNode. by destruct (nodes st !! p). }
    destruct Hfail as [Hne Hst]. rewrite Hst.
    split; [done|]. split; [by intros [? [=]] | done].
Qed.

Lemma X9_AssignSymbol_witness :
  fst (AssignSymbol NDLChain.main "V" (Some 1%nat) NDLChain.chain_store) = Ok tt
  /\ fst (AssignSymbol NDLChain.main "missing" (Some 1%nat) NDLChain.chain_store) <> Ok tt.
Proof.
  split.
  - apply (X9_AssignSymbol_needs_an_existing_symbol NDLChain.chain_store NDLChain.main
             NDLChain.main_script "V" (Some 1%nat) eq_refl).
    eexists. reflexivity.
  - apply (X9_AssignSymbol_needs_an_existing_symbol NDLChain.chain_store NDLChain.main
             NDLChain.main_script "missing" (Some 1%nat) eq_refl).
    reflexivity.
Defined.

(** X10.  [GetScalar] only reads: whatever its outcome (a value, the
    `Scalar expected' error, a fault, or no answer within the fuel), the
    store is the one it was given. *)
Theorem X10_GetScalar_changes_nothing
    {H : Type} (fuel : nat) (this : NodeId) (st : Store H) :
  snd (GetScalar fuel this st) = st.
Proof.
  unfold GetScalar. unfold_monad.
  pose proof (GetScalar_loop_read_only fuel (Some this) st) as Hl.
  destruct (GetScalar_loop fuel (Some this) st) as [[[p|]| | |] st1];
    cbn [snd] in Hl; subst st1; try reflexivity.
  unfold getNode. destruct (nodes st !! p) as [n|]; [|reflexivity].
  by destruct (decide _).
Qed.

(** X11.  [GetScalar] follows a chain of references to its end: when a
    node leads through [k] Variable, Parameter or DotParameter nodes to a
    node that is not a reference, then with fuel for [k] iterations
    [GetScalar] returns the value of that node if it is a Constant, and
    otherwise raises the `Scalar expected' error with the name of that
    node. *)
Theorem X11_GetScalar_resolves_a_chain
    {H : Type} (st : Store H) (this last : NodeId) (k fuel : nat) (n : NDLNode.t) :
  resolves st this k last ->
  nodes st !! last = Some n ->
  k <= fuel ->
  GetScalar fuel this st
  = if decide (NDLNode.m_type n = ndlTypeConstant)
    then (Ok (NDLNode.m_value n), st)
    else (Raise (mkError "Scalar expected, '%s' must be a constant or variable that resolves to a constant
"
                         [ArgStr (NDLNode.m_name n)]), st).
Proof.
  intros Hres Hn Hle. unfold GetScalar. unfold_monad.
  rewrite (resolves_loop _ _ _ _ Hres fuel Hle), (getNode_Some _ _ _ Hn).
  by destruct (decide _).
Qed.

Lemma X11_GetScalar_chain_witness :
  GetScalar 2 3%nat NDLChain.chain_store = (Ok "42", NDLChain.chain_store)
  /\ GetScalar 1 10%nat NDLChain.chain_store
     = (Raise (mkError "Scalar expected, '%s' must be a constant or variable that resolves to a constant
"
                       [ArgStr "f"]), NDLChain.chain_store).
Proof.
  assert (Hc : resolves NDLChain.chain_store 1%nat 0 1%nat)
    by (eapply resolves_here; reflexivity).
  assert (Hv : resolves NDLChain.chain_store 2%nat 1 1%nat)
    by (eapply resolves_step; [reflexivity | reflexivity | vm_compute; reflexivity | exact Hc]).
  assert (Hw : resolves NDLChain.chain_store 3%nat 2 1%nat)
    by (eapply resolves_step; [reflexivity | reflexivity | vm_compute; reflexivity | exact Hv]).
  assert (Hf : resolves NDLChain.chain_store 4%nat 0 4%nat)
    by (eapply resolves_here; reflexivity).
  assert (Hu : resolves NDLChain.chain_store 10%nat 1 4%nat)
    by (eapply resolves_step; [reflexivity | reflexivity | vm_compute; reflexivity | exact Hf]).
  split.
  - exact (X11_GetScalar_resolves_a_chain NDLChain.chain_store 3%nat 1%nat 2 2 _ Hw eq_refl
             (le_n 2)).
  - exact (X11_GetScalar_resolves_a_chain NDLChain.chain_store 10%nat 4%nat 1 1 _ Hu eq_refl
             (le_n 1)).
Defined.
End LookupClaims.

(** ** Nodes and their parameters *)

Section NodeFacts.
Import CStr NDL NDLMembers.
Context {H : Type}.
Implicit Types (st : Store H).

(** A loop that updates every node of a list by an idempotent update. *)
Lemma for_each_updNode (f : NDLNode.t -> NDLNode.t) (l : list NodeId) st :
  (forall n, f (f n) = f n) ->
  Forall (allocated st) l ->
  exists st',
    for_each l (fun p => updNode p f) st = (Ok tt, st')
    /\ scripts st' = scripts st /\ hostState st' = hostState st
    /\ forall p, nodes st' !! p
                 = if bool_decide (p ∈ l) then f <$> nodes st !! p else nodes st !! p.
Proof.
  intros Hidem. revert st. induction l as [|x l IH]; intros st Hall.
  - exists st. by repeat split.
  - apply Forall_cons in Hall as [[n Hn] Hall].
    cbn [for_each]. unfold mbind, M_bind, bind. rewrite (updNode_Some _ _ _ _ Hn).
    set (st1 := mkStore _ _ _).
    assert (Hall1 : Forall (allocated st1) l).
    { eapply Forall_impl; [exact Hall|]. intros p [m Hm]. unfold allocated. subst st1.
      cbn [nodes]. destruct (decide (x = p)) as [->|Hne];
        [rewrite lookup_insert_eq | rewrite lookup_insert_ne by done]; by eexists. }
    destruct (IH st1 Hall1) as (st' & Hrun & Hsc & Hho & Hnodes).
    exists st'. split; [exact Hrun|]. split; [exact Hsc|]. split; [exact Hho|].
    intros p. rewrite Hnodes. subst st1. cbn [nodes].
    destruct (decide (x = p)) as [->|Hne].
    + rewrite lookup_insert_eq, Hn.
      rewrite (bool_decide_true (p ∈ p :: l)) by apply list_elem_of_here.
      destruct (bool_decide (p ∈ l)); cbn; by rewrite ?Hidem.
    + rewrite lookup_insert_ne by done.
      destruct (bool_decide (p ∈ l)) eqn:E.
      * apply bool_decide_eq_true in E.
        by rewrite bool_decide_true by (by apply list_elem_of_further).
      * apply bool_decide_eq_false in E.
        rewrite bool_decide_false; [done|]. intros [?|?]%elem_of_cons; done.
Qed.

(** The loop of [GetParameters] is a filter. *)
Lemma GetParameters_loop_filter (params : list NodeId) (optional : bool)
    (result : list NodeId) st :
  Forall (allocated st) params ->
  GetParameters_loop params optional result st
  = (Ok (result ++ filter (fun p => is_optional st p = optional) params)%list, st).
Proof.
  revert result. induction params as [|p params IH]; intros result Hall.
  - cbn. by rewrite app_nil_r.
  - apply Forall_cons in Hall as [[n Hn] Hall].
    cbn [GetParameters_loop]. unfold_monad. rewrite (getNode_Some _ _ _ Hn).
    assert (Hio : is_optional st p
                  = bool_decide (NDLNode.m_type n = ndlTypeOptionalParameter))
      by (unfold is_optional; by rewrite Hn).
    rewrite (IH _ Hall), filter_cons, Hio.
    destruct (bool_decide (NDLNode.m_type n = ndlTypeOptionalParameter)), optional;
      cbn [Bool.eqb]; (rewrite decide_True by done) || (rewrite decide_False by done);
      by rewrite <- ?app_assoc.
Qed.

(** The loop of [GetOptionalParameter] up to its first answer. *)
Lemma GetOptionalParameter_loop_none (params : list NodeId) (name default : string) st :
  Forall (allocated st) params ->
  (forall p, p ∈ params -> ~ answers st name p) ->
  GetOptionalParameter_loop params name default st = (Ok default, st).
Proof.
  induction params as [|p params IH]; intros Hall Hnone; [reflexivity|].
  apply Forall_cons in Hall as [[n Hn] Hall].
  cbn [GetOptionalParameter_loop]. unfold_monad. rewrite (getNode_Some _ _ _ Hn).
  destruct (bool_decide _ && strcmpi_eq _ _) eqn:E.
  - exfalso. apply andb_true_iff in E as [Ht Hs]. apply bool_decide_eq_true in Ht.
    apply (Hnone p); [apply list_elem_of_here | by exists n].
  - apply IH; [exact Hall|]. intros q Hq. apply Hnone. by apply list_elem_of_further.
Qed.

Lemma GetOptionalParameter_loop_first (l1 l2 : list NodeId) (p : NodeId) (n : NDLNode.t)
    (name default : string) st :
  Forall (allocated st) l1 ->
  (forall q, q ∈ l1 -> ~ answers st name q) ->
  nodes st !! p = Some n ->
  NDLNode.m_type n = ndlTypeOptionalParameter ->
  strcmpi_eq (NDLNode.m_name n) name = true ->
  GetOptionalParameter_loop (l1 ++ p :: l2)%list name default st = (Ok (NDLNode.m_value n), st).
Proof.
  intros Hall Hnone Hn Hty Hname. induction l1 as [|q l1 IH].
  - cbn [app GetOptionalParameter_loop]. unfold_monad. rewrite (getNode_Some _ _ _ Hn).
    by rewrite bool_decide_true, Hname by done.
  - apply Forall_cons in Hall as [[m Hm] Hall].
    cbn [app GetOptionalParameter_loop]. unfold_monad. rewrite (getNode_Some _ _ _ Hm).
    destruct (bool_decide _ && strcmpi_eq _ _) eqn:E.
    + exfalso. apply andb_true_iff in E as [Ht Hs]. apply bool_decide_eq_true in Ht.
      apply (Hnone q); [apply list_elem_of_here | by exists m].
    + apply IH; [exact Hall|]. intros r Hr. apply Hnone. by apply list_elem_of_further.
Qed.
End NodeFacts.

Section NodeClaims.
Import CStr NDL NDLMembers.

(** X12.  [ClearEvalValues] resets the evaluation handle of every child
    of the script to null, and nothing else: the other members of those
    nodes, the nodes that are not children, the scripts and the engine's
    state are as before.  It succeeds whenever the children are still
    allocated. *)
Theorem X12_ClearEvalValues_resets_the_children_only
    {H : Type} (st : Store H) (this : ScriptId) (s : NDLScript.t) :
  scripts st !! this = Some s ->
  Forall (allocated st) (NDLScript.m_children s) ->
  exists st',
    ClearEvalValues this st = (Ok tt, st')
    /\ scripts st' = scripts st /\ hostState st' = hostState st
    /\ (forall p n, p ∈ NDLScript.m_children s -> nodes st !! p = Some n ->
          nodes st' !! p
          = Some (NDLNode.mk (NDLNode.m_name n) (NDLNode.m_value n) (NDLNode.m_parent n)
                    (NDLNode.m_type n) (NDLNode.m_paramString n) (NDLNode.m_paramMacro n)
                    (NDLNode.m_parameters n) None (NDLNode.m_script n)))
    /\ (forall p, p ∉ NDLScript.m_children s -> nodes st' !! p = nodes st !! p).
Proof.
  intros Hs Hall. unfold ClearEvalValues. unfold_monad. rewrite (getScript_Some _ _ _ Hs).
  destruct (for_each_updNode (NDLNode.SetEvalValue None) (NDLScript.m_children s) st)
    as (st' & Hrun & Hsc & Hho & Hnodes); [done | exact Hall |].
  exists st'. split; [exact Hrun|]. split; [exact Hsc|]. split; [exact Hho|]. split.
  - intros p n Hin Hn. by rewrite Hnodes, bool_decide_true, Hn by done.
  - intros p Hout. by rewrite Hnodes, bool_decide_false by done.
Qed.

Lemma X12_ClearEvalValues_witness :
  NDLNode.m_eval <$> nodes NDLMarked.after_call !! 20%nat = Some (Some 20%nat)
  /\ NDLNode.m_eval <$> nodes NDLMarked.after_call !! 21%nat = Some (Some 21%nat)
  /\ NDLNode.m_eval <$> nodes NDLMarked.after_call !! 10%nat = Some (Some 20%nat)
  /\ exists st',
       ClearEvalValues NDLExample.body NDLMarked.after_call = (Ok tt, st')
       /\ NDLNode.m_eval <$> nodes st' !! 20%nat = Some None
       /\ NDLNode.m_eval <$> nodes st' !! 21%nat = Some None
       /\ NDLNode.m_eval <$> nodes st' !! 10%nat = Some (Some 20%nat).
Proof.
  split; [vm_compute; reflexivity|]. split; [vm_compute; reflexivity|].
  split; [vm_compute; reflexivity|].
  assert (Hs : scripts NDLMarked.after_call !! NDLExample.body = Some NDLExample.body_bound)
    by (vm_compute; reflexivity).
  assert (Hall : Forall (allocated NDLMarked.after_call)
                   (NDLScript.m_children NDLExample.body_bound)).
  { repeat (apply Forall_cons; split; [eexists; vm_compute; reflexivity|]). constructor. }
  destruct (X12_ClearEvalValues_resets_the_children_only NDLMarked.after_call NDLExample.body
              NDLExample.body_bound Hs Hall) as (st' & Hrun & _ & _ & Hin & Hout).
  exists st'. split; [exact Hrun|]. split; [|split].
  - erewrite Hin; [reflexivity | | vm_compute; reflexivity].
    apply (bool_decide_unpack _). vm_compute. exact I.
  - erewrite Hin; [reflexivity | | vm_compute; reflexivity].
    apply (bool_decide_unpack _). vm_compute. exact I.
  - rewrite Hout; [vm_compute; reflexivity|].
    apply (bool_decide_unpack _). vm_compute. exact I.
Defined.
(** X13.  [GetParameters] splits the parameters of a node: the regular
    ones and the optional ones are each a sublist of the parameter list, in
    its order; together they are all the parameters, each taken once; the
    optional ones are exactly the nodes of type OptionalParameter.  The
    store is not changed. *)
Theorem X13_GetParameters_splits_the_parameters
    {H : Type} (st : Store H) (this : NodeId) (me : NDLNode.t) :
  nodes st !! this = Some me ->
  Forall (allocated st) (NDLNode.m_parameters me) ->
  exists regular optional,
    GetParameters this false st = (Ok regular, st)
    /\ GetParameters this true st = (Ok optional, st)
    /\ (optional ++ regular)%list ≡ₚ NDLNode.m_parameters me
    /\ regular `sublist_of` NDLNode.m_parameters me
    /\ optional `sublist_of` NDLNode.m_parameters me
    /\ (forall p, p ∈ NDLNode.m_parameters me ->
          (p ∈ optional <-> is_optional st p = true)
          /\ (p ∈ regular <-> is_optional st p = false)).
Proof.
  intros Hme Hall.
  exists (filter (fun p => is_optional st p = false) (NDLNode.m_parameters me)),
         (filter (fun p => is_optional st p = true) (NDLNode.m_parameters me)).
  unfold GetParameters. unfold_monad. rewrite (getNode_Some _ _ _ Hme).
  rewrite !GetParameters_loop_filter by done. cbn [app].
  split; [reflexivity|]. split; [reflexivity|].
  split.
  { assert (Heq : filter (fun p => is_optional st p = false) (NDLNode.m_parameters me)
                  = filter (fun p => ~ is_optional st p = true) (NDLNode.m_parameters me)).
    { apply list_filter_iff. intros p. destruct (is_optional st p); split; congruence. }
    rewrite Heq. apply filter_app_complement. }
  split; [apply sublist_filter|]. split; [apply sublist_filter|].
  intros p Hp. rewrite !list_elem_of_filter. tauto.
Qed.

Lemma X13_GetParameters_witness :
  exists regular optional,
    GetParameters 7%nat false NDLChain.chain_store = (Ok regular, NDLChain.chain_store)
    /\ GetParameters 7%nat true NDLChain.chain_store = (Ok optional, NDLChain.chain_store)
    /\ (optional ++ regular)%list ≡ₚ [1; 8; 9]%nat.
Proof.
  assert (Hall : Forall (allocated NDLChain.chain_store) [1; 8; 9]%nat).
  { repeat (apply Forall_cons; split; [eexists; reflexivity|]). constructor. }
  destruct (X13_GetParameters_splits_the_parameters NDLChain.chain_store 7%nat
              (NDLExample.node "t" "Times" NDLChain.main ndlTypeFunction [] [1; 8; 9]%nat None)
              eq_refl Hall) as (regular & optional & Hr & Ho & Hperm & _).
  exists regular, optional. split; [exact Hr|]. split; [exact Ho | exact Hperm].
Defined.

(** X14.  [GetOptionalParameter] answers with the value of the first
    parameter that is an optional parameter of the name asked for, names
    compared without case; parameters that are not optional are passed
    over even when their name matches; when no parameter answers, the
    default is returned.  The store is not changed. *)
Theorem X14_GetOptionalParameter_first_match_or_default
    {H : Type} (st : Store H) (this : NodeId) (me : NDLNode.t) (name default : string) :
  nodes st !! this = Some me ->
  Forall (allocated st) (NDLNode.m_parameters me) ->
  ((forall p, p ∈ NDLNode.m_parameters me -> ~ answers st name p) ->
   GetOptionalParameter this name default st = (Ok default, st))
  /\ (forall l1 p l2 n,
        NDLNode.m_parameters me = (l1 ++ p :: l2)%list ->
        (forall q, q ∈ l1 -> ~ answers st name q) ->
        nodes st !! p = Some n ->
        NDLNode.m_type n = ndlTypeOptionalParameter ->
        strcmpi_eq (NDLNode.m_name n) name = true ->
        GetOptionalParameter this name default st = (Ok (NDLNode.m_value n), st)).
Proof.
  intros Hme Hall. unfold GetOptionalParameter. unfold_monad.
  rewrite (getNode_Some _ _ _ Hme). split.
  - intros Hnone. by apply GetOptionalParameter_loop_none.
  - intros l1 p l2 n Hsplit Hnone Hn Hty Hname. rewrite Hsplit.
    apply GetOptionalParameter_loop_first; try done.
    rewrite Hsplit in Hall. by apply Forall_app in Hall as [? _].
Qed.

Lemma X14_GetOptionalParameter_witness :
  GetOptionalParameter 7%nat "c" "none" NDLChain.chain_store = (Ok "none", NDLChain.chain_store)
  /\ GetOptionalParameter 7%nat "Rate" "none" NDLChain.chain_store
     = (Ok "0.5", NDLChain.chain_store).
Proof.
  assert (Hall : Forall (allocated NDLChain.chain_store) [1; 8; 9]%nat).
  { repeat (apply Forall_cons; split; [eexists; reflexivity|]). constructor. }
  destruct (X14_GetOptionalParameter_first_match_or_default NDLChain.chain_store 7%nat
              (NDLExample.node "t" "Times" NDLChain.main ndlTypeFunction [] [1; 8; 9]%nat None)
              "c" "none" eq_refl Hall) as [Hdefault _].
  destruct (X14_GetOptionalParameter_first_match_or_default NDLChain.chain_store 7%nat
              (NDLExample.node "t" "Times" NDLChain.main ndlTypeFunction [] [1; 8; 9]%nat None)
              "Rate" "none" eq_refl Hall) as [_ Hfirst].
  split.
  - apply Hdefault. intros p Hp (n & Hn & Hty & Hname).
    cbn in Hp. apply elem_of_cons in Hp as [->|Hp];
      [|apply elem_of_cons in Hp as [->|Hp]; [|apply list_elem_of_singleton in Hp as ->]];
      vm_compute in Hn; injection Hn as <-; vm_compute in Hty, Hname; discriminate.
  - apply (Hfirst [1%nat] 8%nat [9%nat]
             (NDLExample.node "rate" "0.5" NDLChain.main ndlTypeOptionalParameter [] [] None)).
    + reflexivity.
    + intros q Hq%list_elem_of_singleton (n & Hn & Hty & _). subst q.
      vm_compute in Hn. injection Hn as <-. discriminate.
    + reflexivity.
    + reflexivity.
    + reflexivity.
Defined.
End NodeClaims.

(** ** Releasing a script *)

Section ClearFacts.
Import CStr NDL NDLMembers.
Context {H : Type}.
Implicit Types (st : Store H).

Lemma for_each_delete_ok (l : list NodeId) st :
  NoDup l -> Forall (allocated st) l ->
  exists st',
    for_each l delete_node st = (Ok tt, st')
    /\ scripts st' = scripts st /\ hostState st' = hostState st
    /\ forall p, nodes st' !! p = if bool_decide (p ∈ l) then None else nodes st !! p.
Proof.
  revert st. induction l as [|x l IH]; intros st Hnd Hall.
  - exists st. by repeat split.
  - apply NoDup_cons in Hnd as [Hx Hnd]. apply Forall_cons in Hall as [[n Hn] Hall].
    cbn [for_each]. unfold mbind, M_bind, bind. unfold delete_node at 1. rewrite Hn.
    set (st1 := mkStore _ _ _).
    assert (Hall1 : Forall (allocated st1) l).
    { apply Forall_forall. intros p Hp. rewrite Forall_forall in Hall.
      destruct (Hall p Hp) as [m Hm]. exists m. subst st1. cbn [nodes].
      rewrite lookup_delete_ne; [done|]. by intros ->. }
    destruct (IH st1 Hnd Hall1) as (st' & Hrun & Hsc & Hho & Hnodes).
    exists st'. split; [exact Hrun|]. split; [exact Hsc|]. split; [exact Hho|].
    intros p. rewrite Hnodes. subst st1. cbn [nodes].
    destruct (decide (x = p)) as [->|Hne].
    + rewrite (bool_decide_true (p ∈ p :: l)) by apply list_elem_of_here.
      rewrite lookup_delete_eq. by destruct (bool_decide (p ∈ l)).
    + rewrite lookup_delete_ne by done.
      destruct (bool_decide (p ∈ l)) eqn:E.
      * apply bool_decide_eq_true in E.
        by rewrite bool_decide_true by (by apply list_elem_of_further).
      * apply bool_decide_eq_false in E.
        rewrite bool_decide_false; [done|]. intros [?|?]%elem_of_cons; done.
Qed.

Lemma for_each_delete_fail (l : list NodeId) st :
  ~ (NoDup l /\ Forall (allocated st) l) ->
  fst (for_each l delete_node st) = Fault Dangling.
Proof.
  revert st. induction l as [|x l IH]; intros st Hbad.
  - exfalso. apply Hbad. split; constructor.
  - cbn [for_each]. unfold mbind, M_bind, bind. unfold delete_node at 1.
    destruct (nodes st !! x) as [n|] eqn:Hn; [|reflexivity].
    set (st1 := mkStore _ _ _).
    assert (Hbad1 : ~ (NoDup l /\ Forall (allocated st1) l)).
    { intros [Hnd Hall1]. apply Hbad. rewrite Forall_forall in Hall1.
      assert (Hx : x ∉ l).
      { intros Hx. destruct (Hall1 x Hx) as [m Hm]. subst st1. cbn [nodes] in Hm.
        by rewrite lookup_delete_eq in Hm. }
      split; [by apply NoDup_cons|].
      apply Forall_cons. split; [by exists n|].
      apply Forall_forall. intros p Hp. destruct (Hall1 p Hp) as [m Hm].
      subst st1. cbn [nodes] in Hm. exists m.
      rewrite lookup_delete_ne in Hm; [done|]. by intros ->. }
    specialize (IH st1 Hbad1).
    destruct (for_each l delete_node st1) as [[[]| | |] st2]; cbn [fst] in IH |- *;
      congruence.
Qed.
End ClearFacts.

Section ClearClaims.
Import CStr NDL NDLMembers.

(** X15.  [NDLScript::Clear] deletes every child of the script and then
    every node of its statement list.  When those nodes are allocated and
    no node is listed twice, it succeeds: exactly those nodes leave the
    store and the script is left with no children, no statements and no
    symbols.  Otherwise, in particular when a statement of the script is
    also one of its children, a node is deleted that is no longer there. *)
Theorem X15_Clear_releases_children_and_statements
    {H : Type} (st : Store H) (this : ScriptId) (s : NDLScript.t) :
  scripts st !! this = Some s ->
  let targets := (NDLScript.m_children s ++ NDLScript.m_script s)%list in
  (NoDup targets -> Forall (allocated st) targets ->
   exists st',
     Clear this st = (Ok tt, st')
     /\ (forall p, nodes st' !! p = if bool_decide (p ∈ targets) then None else nodes st !! p)
     /\ scripts st'
        = <[this := NDLScript.mk (NDLScript.m_baseName s) [] ∅ (NDLScript.m_noDefinitions s) []]>
            (scripts st)
     /\ hostState st' = hostState st)
  /\ (~ (NoDup targets /\ Forall (allocated st) targets) ->
      fst (Clear this st) = Fault Dangling).
Proof.
  intros Hs targets. subst targets. split.
  - intros Hnd Hall.
    apply NoDup_app in Hnd as (Hnd1 & Hdisj & Hnd2).
    apply Forall_app in Hall as [Hall1 Hall2].
    destruct (for_each_delete_ok _ st Hnd1 Hall1) as (st1 & Hrun1 & Hsc1 & Hho1 & Hn1).
    assert (Hs1 : scripts st1 !! this = Some s) by (by rewrite Hsc1).
    set (st2 := mkStore (nodes st1) (<[this := clear_children s]> (scripts st1))
                  (hostState st1)).
    assert (Hs2 : scripts st2 !! this = Some (clear_children s))
      by (subst st2; cbn [scripts]; apply lookup_insert_eq).
    assert (Hall2' : Forall (allocated st2) (NDLScript.m_script s)).
    { apply Forall_forall. intros p Hp. rewrite Forall_forall in Hall2.
      destruct (Hall2 p Hp) as [m Hm]. exists m. subst st2. cbn [nodes].
      rewrite Hn1, bool_decide_false; [done|]. intros Hc. by apply (Hdisj p). }
    destruct (for_each_delete_ok _ st2 Hnd2 Hall2') as (st3 & Hrun3 & Hsc3 & Hho3 & Hn3).
    assert (Hs3 : scripts st3 !! this = Some (clear_children s)) by (by rewrite Hsc3).
    unfold Clear. unfold_monad.
    rewrite (getScript_Some _ _ _ Hs), Hrun1, (updScript_Some _ _ _ _ Hs1). fold st2.
    rewrite (getScript_Some _ _ _ Hs2). cbn [clear_children NDLScript.m_script].
    rewrite Hrun3, (updScript_Some _ _ _ _ Hs3).
    set (st4 := mkStore (nodes st3) _ (hostState st3)).
    assert (Hs4 : scripts st4 !! this = Some (clear_script (clear_children s)))
      by (subst st4; cbn [scripts]; apply lookup_insert_eq).
    rewrite (updScript_Some _ _ _ _ Hs4).
    eexists. split; [reflexivity|]. cbn [nodes scripts hostState]. split; [|split].
    + intros p. rewrite Hn3. subst st2. cbn [nodes]. rewrite Hn1.
      destruct (bool_decide (p ∈ NDLScript.m_children s)) eqn:E1;
        destruct (bool_decide (p ∈ NDLScript.m_script s)) eqn:E2;
        try apply bool_decide_eq_true in E1; try apply bool_decide_eq_true in E2;
        try apply bool_decide_eq_false in E1; try apply bool_decide_eq_false in E2.
      * by rewrite bool_decide_true by (apply elem_of_app; by left).
      * by rewrite bool_decide_true by (apply elem_of_app; by left).
      * by rewrite bool_decide_true by (apply elem_of_app; by right).
      * rewrite bool_decide_false; [done|]. intros [?|?]%elem_of_app; done.
    + subst st4. cbn [scripts]. rewrite Hsc3. subst st2. cbn [scripts]. rewrite Hsc1.
      by rewrite !insert_insert_eq.
    + subst st4. cbn [hostState]. rewrite Hho3. subst st2. by cbn [hostState].
  - intros Hbad. unfold Clear. unfold_monad. rewrite (getScript_Some _ _ _ Hs).
    destruct (decide (NoDup (NDLScript.m_children s)
                      /\ Forall (allocated st) (NDLScript.m_children s))) as [[Hnd1 Hall1]|Hbad1].
    + destruct (for_each_delete_ok _ st Hnd1 Hall1) as (st1 & Hrun1 & Hsc1 & Hho1 & Hn1).
      assert (Hs1 : scripts st1 !! this = Some s) by (by rewrite Hsc1).
      rewrite Hrun1, (updScript_Some _ _ _ _ Hs1).
      set (st2 := mkStore (nodes st1) _ (hostState st1)).
      assert (Hs2 : scripts st2 !! this = Some (clear_children s))
        by (subst st2; cbn [scripts]; apply lookup_insert_eq).
      rewrite (getScript_Some _ _ _ Hs2). cbn [clear_children NDLScript.m_script].
      assert (Hbad2 : ~ (NoDup (NDLScript.m_script s)
                         /\ Forall (allocated st2) (NDLScript.m_script s))).
      { intros [Hnd2 Hall2]. apply Hbad. rewrite Forall_forall in Hall2.
        assert (Hdisj : forall p, p ∈ NDLScript.m_children s -> p ∉ NDLScript.m_script s).
        { intros p Hp1 Hp2. destruct (Hall2 p Hp2) as [m Hm]. subst st2. cbn [nodes] in Hm.
          by rewrite Hn1, bool_decide_true in Hm. }
        split; [by apply NoDup_app|].
        apply Forall_app. split; [exact Hall1|].
        apply Forall_forall. intros p Hp. destruct (Hall2 p Hp) as [m Hm].
        subst st2. cbn [nodes] in Hm. rewrite Hn1 in Hm.
        destruct (bool_decide (p ∈ NDLScript.m_children s)); [done | by exists m]. }
      pose proof (for_each_delete_fail _ st2 Hbad2) as Hf.
      destruct (for_each (NDLScript.m_script s) delete_node st2) as [[[]| | |] st3];
        cbn [fst] in Hf |- *; congruence.
    + pose proof (for_each_delete_fail _ st Hbad1) as Hf.
      destruct (for_each (NDLScript.m_children s) delete_node st) as [[[]| | |] st1];
        cbn [fst] in Hf |- *; congruence.
Qed.

Lemma X15_Clear_witness :
  (exists st', Clear NDLChain.main NDLChain.detached_store = (Ok tt, st'))
  /\ fst (Clear NDLChain.main NDLChain.chain_store) = Fault Dangling.
Proof.
  split.
  - destruct (X15_Clear_releases_children_and_statements NDLChain.detached_store
                NDLChain.main NDLChain.detached_script eq_refl) as [Hok _].
    destruct Hok as (st' & Hrun & _).
    + apply (bool_decide_unpack _). vm_compute. exact I.
    + cbn. repeat (apply Forall_cons; split; [eexists; reflexivity|]). constructor.
    + by exists st'.
  - apply (X15_Clear_releases_children_and_statements NDLChain.chain_store
             NDLChain.main NDLChain.main_script eq_refl).
    intros [Hnd _]. cbn in Hnd. apply NoDup_cons in Hnd as [Hx _]. apply Hx.
    apply (bool_decide_unpack _). vm_compute. exact I.
Defined.
End ClearClaims.

(** ** Evaluation of a script, continued *)

Section EvaluateMore.
Import CStr NDL NDLMembers EvaluateSpec.

Lemma after_first_absent (p : NodeId) (l : list NodeId) : p ∉ l -> after_first p l = [].
Proof.
  induction l as [|x l IH]; [done|]. intros Hp. cbn [after_first].
  rewrite decide_False by (intros ->; apply Hp, list_elem_of_here).
  apply IH. intros Hin. by apply Hp, list_elem_of_further.
Qed.

Lemma after_first_last (p : NodeId) (front : list NodeId) :
  p ∉ front -> after_first p (front ++ [p])%list = [].
Proof.
  induction front as [|x front IH]; intros Hp; cbn [app after_first].
  - by rewrite decide_True.
  - rewrite decide_False by (intros ->; apply Hp, list_elem_of_here).
    apply IH. intros Hin. by apply Hp, list_elem_of_further.
Qed.

Lemma set_baseName_back (s : NDLScript.t) (b : string) :
  NDLScript.set_baseName (NDLScript.m_baseName s) (NDLScript.set_baseName b s) = s.
Proof. by destruct s. Qed.

(** X16.  [Evaluate] puts [baseName] on the script while its statements
    are evaluated.  When they all evaluate, the base name the script had
    before is put back and the last node evaluated is returned; when one of
    them raises, the error passes through with the store as the statement
    left it, and the previous base name is not put back. *)
Theorem X16_Evaluate_base_name_is_restored_on_success_only
    {H : Type} (nodeEval : NDLNodeEvaluator H) (fuel : nat) (st : Store H)
    (this : ScriptId) (s : NDLScript.t) (baseName : string) (pass : NDLPass)
    (skipThrough : option NodeId) :
  scripts st !! this = Some s ->
  let entered := mkStore (nodes st) (<[this := NDLScript.set_baseName baseName s]> (scripts st))
                   (hostState st) in
  let todo := statements_to_evaluate skipThrough (NDLScript.m_script s) in
  (forall st4 s4,
     for_each todo (evaluate_statement nodeEval fuel baseName pass) entered = (Ok tt, st4) ->
     scripts st4 !! this = Some s4 ->
     Evaluate nodeEval fuel this baseName pass skipThrough st
     = (Ok (last_evaluated skipThrough todo),
        mkStore (nodes st4)
          (<[this := NDLScript.set_baseName (NDLScript.m_baseName s) s4]> (scripts st4))
          (hostState st4)))
  /\ (forall e st4,
        for_each todo (evaluate_statement nodeEval fuel baseName pass) entered = (Raise e, st4) ->
        Evaluate nodeEval fuel this baseName pass skipThrough st = (Raise e, st4)).
Proof.
  intros Hs entered todo.
  assert (Hrun : Evaluate nodeEval fuel this baseName pass skipThrough st
                 = match for_each todo (evaluate_statement nodeEval fuel baseName pass) entered with
                   | (Ok _, st4) =>
                       match updScript this (NDLScript.set_baseName (NDLScript.m_baseName s)) st4 with
                       | (Ok _, st5) => (Ok (last_evaluated skipThrough todo), st5)
                       | (Raise e, st5) => (Raise e, st5)
                       | (Fault f, st5) => (Fault f, st5)
                       | (OutOfFuel, st5) => (OutOfFuel, st5)
                       end
                   | (Raise e, st4) => (Raise e, st4)
                   | (Fault f, st4) => (Fault f, st4)
                   | (OutOfFuel, st4) => (OutOfFuel, st4)
                   end).
  { rewrite Evaluate_unfold. unfold Evaluate_spec, GetBaseName, SetBaseName. unfold_monad.
    rewrite (getScript_Some _ _ _ Hs), (updScript_Some _ _ _ _ Hs). fold entered.
    unfold getScript at 1. subst entered. cbn [scripts]. rewrite lookup_insert_eq.
    cbn [NDLScript.m_script NDLScript.set_baseName]. fold todo.
    by destruct (for_each todo _ _) as [[[]| | |] st4]. }
  split.
  - intros st4 s4 Hfor Hs4. by rewrite Hrun, Hfor, (updScript_Some _ _ _ _ Hs4).
  - intros e st4 Hfor. by rewrite Hrun, Hfor.
Qed.

Lemma X16_Evaluate_base_name_witness :
  exists st',
    Evaluate NDLExample.logging_evaluator 0 NDLExample.bar_body "s" ndlPassInitial None
      NDLExample.example_store = (Ok (Some 31%nat), st')
    /\ scripts st' !! NDLExample.bar_body = Some NDLExample.bar_script.
Proof.
  destruct (X16_Evaluate_base_name_is_restored_on_success_only NDLExample.logging_evaluator 0
              NDLExample.example_store NDLExample.bar_body NDLExample.bar_script "s"
              ndlPassInitial None eq_refl) as [Hok _].
  eexists. split.
  - apply Hok; vm_compute; reflexivity.
  - vm_compute. reflexivity.
Defined.

(** X17.  Resuming where nothing is left is a no-op: when [skipThrough]
    is the last statement of the script (and occurs nowhere before), or
    does not occur in the script at all, [Evaluate] evaluates nothing,
    returns [skipThrough] and leaves the store exactly as it was. *)
Theorem X17_Evaluate_resumed_at_the_end_does_nothing
    {H : Type} (nodeEval : NDLNodeEvaluator H) (fuel : nat) (st : Store H)
    (this : ScriptId) (s : NDLScript.t) (baseName : string) (pass : NDLPass)
    (p : NodeId) :
  scripts st !! this = Some s ->
  p ∉ NDLScript.m_script s
  \/ (exists front, NDLScript.m_script s = (front ++ [p])%list /\ p ∉ front) ->
  Evaluate nodeEval fuel this baseName pass (Some p) st = (Ok (Some p), st).
Proof.
  intros Hs Hend.
  assert (Hnone : statements_to_evaluate (Some p) (NDLScript.m_script s) = []).
  { cbn [statements_to_evaluate]. destruct Hend as [Habs|(front & -> & Hp)];
      [by apply after_first_absent | by apply after_first_last]. }
  rewrite Evaluate_unfold. unfold Evaluate_spec, GetBaseName, SetBaseName. unfold_monad.
  rewrite (getScript_Some _ _ _ Hs), (updScript_Some _ _ _ _ Hs).
  set (entered := mkStore _ _ _).
  assert (Hs2 : scripts entered !! this = Some (NDLScript.set_baseName baseName s))
    by (subst entered; cbn [scripts]; apply lookup_insert_eq).
  rewrite (getScript_Some _ _ _ Hs2). cbn [NDLScript.m_script NDLScript.set_baseName].
  rewrite Hnone. cbn [for_each]. unfold ret.
  rewrite (updScript_Some _ _ _ _ Hs2). subst entered. cbn [nodes scripts hostState].
  rewrite set_baseName_back, insert_insert_eq, (insert_id _ _ _ Hs).
  by destruct st.
Qed.

Lemma X17_Evaluate_resumed_witness :
  Evaluate NDLExample.logging_evaluator 0 NDLExample.bar_body "s" ndlPassInitial
    (Some 31%nat) NDLExample.example_store = (Ok (Some 31%nat), NDLExample.example_store).
Proof.
  apply (X17_Evaluate_resumed_at_the_end_does_nothing NDLExample.logging_evaluator 0
           NDLExample.example_store NDLExample.bar_body NDLExample.bar_script).
  - reflexivity.
  - right. exists [30%nat]. split; [reflexivity|].
    intros Hin%list_elem_of_singleton. discriminate.
Defined.
End EvaluateMore.

(** ** Binding the parameters of a macro call *)

Section BindingMore.
Import CStr NDL NDLMembers.

(** X18.  A positional actual parameter (a node that is neither a
    Parameter nor an optional parameter) at the position of a formal
    parameter is bound to the name of that formal parameter in the script
    of the macro, which must already hold that name: then the symbol is
    re-bound to the actual node, every other symbol keeps its binding and no
    node but the actual one is touched; when the script does not hold the
    name, the error of [AssignSymbol] is raised and nothing is changed. *)
Theorem X18_positional_parameter_is_bound_to_its_formal
    {H : Type} (nodeEval : NDLNodeEvaluator H) (st : Store H)
    (this : NodeId) (script : ScriptId) (i : nat) (p : NodeId)
    (me param : NDLNode.t) (s : NDLScript.t) (formal : string) :
  nodes st !! this = Some me ->
  nodes st !! p = Some param ->
  NDLNode.m_type param <> ndlTypeParameter ->
  NDLNode.m_type param <> ndlTypeOptionalParameter ->
  NDLNode.m_paramMacro me !! i = Some formal ->
  scripts st !! script = Some s ->
  (is_Some (NDLScript.m_symbols s !! key formal) ->
   exists st',
     bind_parameter nodeEval this script i p st = (Ok tt, st')
     /\ scripts st'
        = <[script := NDLScript.set_symbols (<[key formal := Some p]>) s]> (scripts st)
     /\ (forall q, q <> p -> nodes st' !! q = nodes st !! q))
  /\ (NDLScript.m_symbols s !! key formal = None ->
      bind_parameter nodeEval this script i p st
      = (Raise (mkError "Symbol '%s' currently does not exist, attempting to assigned value '%s' AssignSymbol() requires existing symbol
"
                        [ArgStr formal; ArgStr (NDLNode.m_value param)]), st)).
Proof.
  intros Hme Hp Hnp Hno Hformal Hs.
  assert (Hlt : (i <? length (NDLNode.m_paramMacro me))%nat = true)
    by (apply Nat.ltb_lt; by eapply lookup_lt_Some).
  assert (Hnth : nth i (NDLNode.m_paramMacro me) EmptyString = formal)
    by (by rewrite nth_lookup, Hformal).
  split.
  - intros [old Hold].
    unfold bind_parameter. unfold_monad.
    rewrite (getNode_Some _ _ _ Hme), (getNode_Some _ _ _ Hp), Hlt, Hnth.
    rewrite !decide_False by done.
    rewrite (AssignSymbol_bound _ _ _ _ (Some p) old Hs Hold).
    set (st1 := mkStore _ _ _).
    destruct (eval_FindSymbol nodeEval (utf16 formal) st1) as [v|].
    + rewrite (updNode_Some st1 p param) by done.
      eexists. split; [reflexivity|]. split; [reflexivity|].
      intros q Hq. cbn [nodes]. by rewrite lookup_insert_ne.
    + exists st1. split; [reflexivity|]. by split.
  - intros Hnone.
    unfold bind_parameter, AssignSymbol. unfold_monad.
    rewrite (getNode_Some _ _ _ Hme), (getNode_Some _ _ _ Hp), Hlt, Hnth.
    rewrite !decide_False by done.
    rewrite (getScript_Some _ _ _ Hs), Hnone. cbn [deref].
    by rewrite (getNode_Some _ _ _ Hp).
Qed.

Lemma X18_positional_parameter_witness :
  exists st',
    bind_parameter NDLExample.logging_evaluator 10%nat NDLExample.body 0 11%nat
      NDLExample.example_store = (Ok tt, st')
    /\ binding st' NDLExample.body "a" = Some (Some 11%nat).
Proof.
  destruct (X18_positional_parameter_is_bound_to_its_formal NDLExample.logging_evaluator
              NDLExample.example_store 10%nat NDLExample.body 0 11%nat NDLExample.call_r
              (NDLExample.node "unnamed1" "3" NDLExample.caller ndlTypeConstant [] [] None)
              NDLExample.body_script "a" eq_refl eq_refl)
    as [Hbound _]; [discriminate | discriminate | reflexivity | reflexivity |].
  destruct Hbound as (st' & Hrun & Hsc & _); [eexists; reflexivity|].
  exists st'. split; [exact Hrun|].
  unfold binding. rewrite Hsc. vm_compute. reflexivity.
Defined.

(** X19.  An actual parameter that is itself a Parameter node (a formal
    parameter of the calling macro passed on) is looked up by name in the
    script of the call, and what that script binds to the name is what the
    script of the macro called receives: the formal parameter of the callee
    ends up bound to the caller's node, not to the Parameter node. *)
Theorem X19_parameter_of_the_caller_is_passed_through
    {H : Type} (nodeEval : NDLNodeEvaluator H) (st : Store H)
    (this : NodeId) (script : ScriptId) (i : nat) (p q : NodeId)
    (me param actual : NDLNode.t) (sp s : NDLScript.t) (formal : string) :
  nodes st !! this = Some me ->
  nodes st !! p = Some param ->
  NDLNode.m_type param = ndlTypeParameter ->
  NDLNode.m_paramMacro me !! i = Some formal ->
  scripts st !! NDLNode.m_parent me = Some sp ->
  NDLScript.m_symbols sp !! key (NDLNode.m_name param) = Some (Some q) ->
  nodes st !! q = Some actual ->
  scripts st !! script = Some s ->
  is_Some (NDLScript.m_symbols s !! key formal) ->
  exists st',
    bind_parameter nodeEval this script i p st = (Ok tt, st')
    /\ binding st' script formal = Some (Some q).
Proof.
  intros Hme Hp Hty Hformal Hsp Hq Hactual Hs [old Hold].
  assert (Hlt : (i <? length (NDLNode.m_paramMacro me))%nat = true)
    by (apply Nat.ltb_lt; by eapply lookup_lt_Some).
  assert (Hnth : nth i (NDLNode.m_paramMacro me) EmptyString = formal)
    by (by rewrite nth_lookup, Hformal).
  unfold bind_parameter, FindSymbol. cbn [negb]. unfold_monad.
  rewrite (getNode_Some _ _ _ Hme), (getNode_Some _ _ _ Hp), Hlt, Hnth.
  rewrite decide_True by done.
  rewrite (FindSymbol_plain_Some _ _ _ _ Hsp), Hq. cbn [from_option id].
  rewrite (AssignSymbol_bound _ _ _ _ (Some q) old Hs Hold).
  set (st1 := mkStore _ _ _).
  assert (Hb : forall st2 : Store H, scripts st2 = scripts st1 ->
                 binding st2 script formal = Some (Some q)).
  { intros st2 Heq. unfold binding. rewrite Heq. subst st1. cbn [scripts].
    rewrite lookup_insert_eq. cbn. by rewrite lookup_insert_eq. }
  destruct (eval_FindSymbol nodeEval (utf16 formal) st1) as [v|].
  - rewrite (updNode_Some st1 q actual) by done.
    eexists. split; [reflexivity|]. by apply Hb.
  - exists st1. split; [reflexivity|]. by apply Hb.
Qed.

Lemma X19_parameter_pass_through_witness :
  exists st',
    bind_parameter NDLExample.logging_evaluator 40%nat NDLExample.bar_body 0 22%nat
      NDLNested.nested_store = (Ok tt, st')
    /\ binding st' NDLExample.bar_body "b" = Some (Some 11%nat).
Proof.
  apply (X19_parameter_of_the_caller_is_passed_through NDLExample.logging_evaluator
           NDLNested.nested_store 40%nat NDLExample.bar_body 0 22%nat 11%nat
           NDLNested.inner_call
           (NDLExample.node "a" "a" NDLExample.body ndlTypeParameter [] [] None)
           (NDLExample.node "unnamed1" "3" NDLExample.caller ndlTypeConstant [] [] None)
           NDLExample.body_bound NDLExample.bar_script "b").
  - reflexivity.
  - vm_compute. reflexivity.
  - reflexivity.
  - reflexivity.
  - vm_compute. reflexivity.
  - vm_compute. reflexivity.
  - vm_compute. reflexivity.
  - vm_compute. reflexivity.
  - eexists. vm_compute. reflexivity.
Defined.
End BindingMore.

(** ** The store a macro call leaves *)

Section MacroCallStore.
Import CStr NDL NDLMembers.


End MacroCallStore.
